(** * ClinicalExtract evaluation script ([utils/eval.py]): scoring engine

    A shallow embedding of the scorer of [utils/eval.py] and the properties
    of its matching and of its precision / recall / F1 arithmetic.

    Modelling conventions.
    - A Python [str] is a Rocq [string]; every character is read as the
      code point of the same number (U+0000 .. U+00FF).  [str.lower],
      [str.strip] and [str.split] are written out for that range.
    - An extraction record is a [dict] read through [.get(key, "")]; it is
      a [gmap string string] holding its [str]-valued fields (the docstring
      of [compute_metrics]: [{"class": str, "text": str, ...}]).
    - [matched_gold] is a [gset nat]; the counters are [nat].
    - Python floats are rationals ([Q]): the quotients [tp / n] are exact and
      rounding is not modelled.  Results are compared with [==].
    - [/] raises [ZeroDivisionError] on a zero divisor, so the arithmetic
      lives in a small error monad.
    - What depends on a field that is not a [str], or on float rounding, is
      stated on a second reading of [compute_metrics], with arbitrary field
      values and float operations known only by the laws binary64 has
      ([compute_metrics_any]).  What depends on file names, or on a JSON
      file that does not parse, is stated on [run_eval_files]. *)

From Stdlib Require Import Ascii String QArith Lqa.
From stdpp Require Import gmap gmultiset strings list.

Local Open Scope string_scope.

(** ** Python string primitives *)

Module PyStr.

(** [str.isspace] on one code point below 256:
    TAB..CR, FS..US, SPACE, NEL (0x85) and NBSP (0xA0). *)
Definition isspace (c : ascii) : bool :=
  let n := nat_of_ascii c in
  ((9 <=? n)%nat && (n <=? 13)%nat)
  || ((28 <=? n)%nat && (n <=? 32)%nat)
  || (n =? 133)%nat || (n =? 160)%nat.

(** Lower-case mapping of one code point below 256:
    A..Z, and the Latin-1 capitals 0xC0..0xDE except the sign 0xD7. *)
Definition lower_char (c : ascii) : ascii :=
  let n := nat_of_ascii c in
  if ((65 <=? n)%nat && (n <=? 90)%nat)
     || ((192 <=? n)%nat && (n <=? 222)%nat && negb (n =? 215)%nat)
  then ascii_of_nat (n + 32)
  else c.

(** [s.lower()] *)
Fixpoint lower (s : string) : string :=
  match s with
  | EmptyString => EmptyString
  | String c t => String (lower_char c) (lower t)
  end.

Fixpoint lstrip (s : string) : string :=
  match s with
  | EmptyString => EmptyString
  | String c t => if isspace c then lstrip t else s
  end.

Fixpoint rstrip (s : string) : string :=
  match s with
  | EmptyString => EmptyString
  | String c t =>
      match rstrip t with
      | EmptyString => if isspace c then EmptyString else String c EmptyString
      | t' => String c t'
      end
  end.

(** [s.strip()] *)
Definition strip (s : string) : string := rstrip (lstrip s).

(** [s.split()]: the maximal runs of non-whitespace characters, in order. *)
Fixpoint split (s : string) : list string :=
  match s with
  | EmptyString => []
  | String c t =>
      if isspace c then split t
      else
        match t with
        | EmptyString => [String c EmptyString]
        | String c' _ =>
            if isspace c' then String c EmptyString :: split t
            else
              match split t with
              | w :: ws => String c w :: ws
              | [] => [String c EmptyString]
              end
        end
  end.

(** [sep.join(ws)] *)
Fixpoint join (sep : string) (ws : list string) : string :=
  match ws with
  | [] => EmptyString
  | [w] => w
  | w :: ws' => w ++ sep ++ join sep ws'
  end.

(** [s.startswith(p)] *)
Fixpoint startswith (s p : string) {struct p} : bool :=
  match p, s with
  | EmptyString, _ => true
  | String _ _, EmptyString => false
  | String a p', String b s' => Ascii.eqb a b && startswith s' p'
  end.

(** [needle in hay]: [needle] occurs in [hay] at some offset. *)
Fixpoint contains (needle hay : string) : bool :=
  startswith hay needle
  || match hay with
     | EmptyString => false
     | String _ t => contains needle t
     end.

(** Truth value of a [str]: false exactly for the empty string. *)
Definition truthy (s : string) : bool :=
  match s with
  | EmptyString => false
  | String _ _ => true
  end.

End PyStr.

(** ** Text normalisation and the two match predicates *)

(** [" ".join(s.lower().strip().split())] *)
Definition normalize_for_match (s : string) : string :=
  PyStr.join " " (PyStr.split (PyStr.strip (PyStr.lower s))).

Definition partial_match (pred_text gold_text : string) : bool :=
  let p := normalize_for_match pred_text in
  let g := normalize_for_match gold_text in
  if negb (PyStr.truthy p) || negb (PyStr.truthy g) then false
  else PyStr.contains p g || PyStr.contains g p.

Definition exact_match (pred_text gold_text : string) : bool :=
  String.eqb (normalize_for_match pred_text) (normalize_for_match gold_text).

(** ** Exceptions *)

Inductive exn : Type :=
| ZeroDivisionError
| KeyError (key : string)
| AttributeError
| JSONDecodeError.

Inductive result (A : Type) : Type :=
| Ok (a : A)
| Raise (e : exn).

Arguments Ok {A} a.
Arguments Raise {A} e.

#[global] Instance result_ret : MRet result := fun A a => Ok a.
#[global] Instance result_bind : MBind result := fun A B f m =>
  match m with
  | Ok a => f a
  | Raise e => Raise e
  end.

(** [for x in xs: st = body(st, x)] where the body may raise. *)
Fixpoint for_each {S A : Type} (body : S → A → result S) (xs : list A) (st : S)
  : result S :=
  match xs with
  | [] => Ok st
  | x :: xs' => st' ← body st x; for_each body xs' st'
  end.

(** ** Numbers *)

(** An [int] used where a [float] is expected. *)
Definition of_int (n : nat) : Q := inject_Z (Z.of_nat n).

(** [a / b] *)
Definition truediv (a b : Q) : result Q :=
  if Qeq_bool b 0 then Raise ZeroDivisionError else Ok (a / b)%Q.

(** [x > 0] *)
Definition positive (x : Q) : bool := negb (Qle_bool x 0).

(** ** Records *)

(** An extraction record: the [str]-valued fields of the dict. *)
Abbreviation record := (gmap string string).

(** [d.get(key, dflt)] *)
Definition dict_get (d : record) (key dflt : string) : string :=
  default dflt (d !! key).

(** Truth value of a [list]: false exactly for the empty list. *)
Definition nonempty {A : Type} (l : list A) : bool :=
  match l with
  | [] => false
  | _ :: _ => true
  end.

(** [key in d] *)
Definition dict_contains {V : Type} (d : gmap string V) (key : string) : bool :=
  bool_decide (is_Some (d !! key)).

(** [d[key]] *)
Definition dict_getitem {V : Type} (d : gmap string V) (key : string) : result V :=
  match d !! key with
  | Some v => Ok v
  | None => Raise (KeyError key)
  end.

(** [enumerate(l)], counting from [start]. *)
Fixpoint enumerate_from {A : Type} (start : nat) (l : list A) : list (nat * A) :=
  match l with
  | [] => []
  | x :: l' => (start, x) :: enumerate_from (S start) l'
  end.

Definition enumerate {A : Type} (l : list A) : list (nat * A) :=
  enumerate_from 0 l.

(** ** compute_metrics *)

(** The variables the matching loop updates. *)
Record loop_state : Type := LoopState {
  st_tp : nat;
  st_matched_gold : gset nat
}.

(** [match = partial_match if match_fn == "partial" else exact_match] *)
Definition select_match (match_fn : string) : string → string → bool :=
  if String.eqb match_fn "partial" then partial_match else exact_match.

(** The inner loop [for i, g in enumerate(gold)], for one predicted record.
    Each [continue] goes on with the rest of the list; [break] returns. *)
Fixpoint scan_gold (match_ : string → string → bool) (p_class p_text : string)
    (gs : list (nat * record)) (st : loop_state) : loop_state :=
  match gs with
  | [] => st
  | (i, g) :: rest =>
      if bool_decide (i ∈ st_matched_gold st) then
        scan_gold match_ p_class p_text rest st
      else if negb (String.eqb p_class (dict_get g "class" "")) then
        scan_gold match_ p_class p_text rest st
      else if match_ p_text (dict_get g "text" "") then
        LoopState (st_tp st + 1) ({[ i ]} ∪ st_matched_gold st)
      else
        scan_gold match_ p_class p_text rest st
  end.

(** The body of the outer loop [for p in predicted]. *)
Definition match_one (match_ : string → string → bool) (gold : list record)
    (st : loop_state) (p : record) : loop_state :=
  let p_class := dict_get p "class" "" in
  let p_text := dict_get p "text" "" in
  scan_gold match_ p_class p_text (enumerate gold) st.

(** The outer loop, from [tp = 0] and [matched_gold = set()]. *)
Definition match_loop (match_ : string → string → bool)
    (predicted gold : list record) : loop_state :=
  fold_left (match_one match_ gold) predicted (LoopState 0 ∅).

(** The returned dict; [num_pred] and [num_gold] are its keys ["pred"] and
    ["gold"]. *)
Record Metrics : Type := MkMetrics {
  precision : Q;
  recall : Q;
  f1 : Q;
  tp : nat;
  num_pred : nat;
  num_gold : nat
}.

Definition compute_metrics (predicted gold : list record) (match_fn : string)
  : result Metrics :=
  let match_ := select_match match_fn in
  let st := match_loop match_ predicted gold in
  let tp := st_tp st in
  let num_pred := length predicted in
  let num_gold := length gold in
  precision ← (if (num_pred =? 0)%nat then Ok 0%Q
               else truediv (of_int tp) (of_int num_pred));
  recall ← (if (num_gold =? 0)%nat then Ok 0%Q
            else truediv (of_int tp) (of_int num_gold));
  f1 ← (if positive (precision + recall)
        then truediv (2 * precision * recall) (precision + recall)
        else Ok 0%Q);
  Ok (MkMetrics precision recall f1 tp num_pred num_gold).

(** ** load_gold and run_eval *)

(** What [json.load] returned, by the shapes the loaders tell apart.  The
    arrays of a gold or prediction file hold extraction records, and so does
    the value an object keeps under a key (the declared result of [load_gold]
    is [list[dict]]). *)
Inductive parsed : Type :=
| DataList (items : list record)
| DataDict (fields : gmap string (list record))
| DataOther.

(** [load_gold], from the parsed content of the file on. *)
Definition load_gold (data : parsed) : result (list record) :=
  match data with
  | DataList items => Ok items
  | DataDict fields =>
      if dict_contains fields "extractions"
      then dict_getitem fields "extractions"
      else Ok []
  | DataOther => Ok []
  end.

(** A samples directory: the stems of its [*.txt] files in sorted order, and
    the parsed content of its JSON files by name. *)
Record samples : Type := Samples {
  txt_stems : list string;
  json_files : gmap string parsed
}.

Record file_result : Type := FileResult {
  file : string;
  metrics : Metrics
}.

(** [aggregate] is [None] for the empty dict [{}]. *)
Record report : Type := Report {
  per_file : list file_result;
  aggregate : option Metrics
}.

Record eval_state : Type := EvalState {
  results : list file_result;
  all_pred : list record;
  all_gold : list record
}.

(** The body of [for txt_path in sorted(samples_dir.glob("*.txt"))]. *)
Definition run_eval_body (files : gmap string parsed) (st : eval_state)
    (stem : string) : result eval_state :=
  match files !! (stem ++ ".json") with
  | None => Ok st
  | Some gold_data =>
      gold ← load_gold gold_data;
      match files !! (stem ++ "_pred.json") with
      | None => Ok st
      | Some pred =>
          pred_list ←
            match pred with
            | DataList items => Ok items
            | DataDict fields =>
                if dict_contains fields "extractions"
                then dict_getitem fields "extractions"
                else Ok []
            | DataOther => Ok []
            end;
          metrics ← compute_metrics pred_list gold "partial";
          Ok (EvalState (results st ++ [FileResult (stem ++ ".txt") metrics])
                        (all_pred st ++ pred_list)
                        (all_gold st ++ gold))
      end
  end.

Definition run_eval (dir : samples) : result report :=
  st ← for_each (run_eval_body (json_files dir)) (txt_stems dir)
                (EvalState [] [] []);
  aggregate ← (if nonempty (all_pred st) && nonempty (all_gold st)
               then m ← compute_metrics (all_pred st) (all_gold st) "partial";
                    Ok (Some m)
               else Ok None);
  Ok (Report (results st) aggregate).

(** ** The specification's vocabulary *)

(** [s] occurs in [t]: some text before, [s], some text after. *)
Definition substring_of (s t : string) : Prop :=
  ∃ before after : string, t = before ++ s ++ after.

Definition class_of (r : record) : string := dict_get r "class" "".
Definition text_of (r : record) : string := dict_get r "text" "".

Section Greedy.
Variable match_ : string → string → bool.

(** The test one round of the inner loop applies to gold record [g] at
    index [i]. *)
Definition takes (st : loop_state) (p_class p_text : string)
    (i : nat) (g : record) : Prop :=
  (i ∉ st_matched_gold st) ∧ p_class = class_of g
  ∧ match_ p_text (text_of g) = true.

Variable gold : list record.

(** Gold index [i] may be taken by [p]: not consumed yet, same class
    (the very same string), and the text predicate holds. *)
Definition eligible (consumed : gset nat) (p : record) (i : nat) : Prop :=
  (i ∉ consumed) ∧
  (∃ g, gold !! i = Some g ∧ class_of p = class_of g
        ∧ match_ (text_of p) (text_of g) = true).

(** One predicted record: the first eligible gold index is consumed and
    counted, or nothing changes when there is none. *)
Inductive greedy_step (p : record) : loop_state → loop_state → Prop :=
| greedy_hit st i :
    eligible (st_matched_gold st) p i →
    (∀ j, j < i → ¬ eligible (st_matched_gold st) p j) →
    greedy_step p st (LoopState (st_tp st + 1) ({[ i ]} ∪ st_matched_gold st))
| greedy_miss st :
    (∀ i, ¬ eligible (st_matched_gold st) p i) →
    greedy_step p st st.

(** The predicted records one after the other, in input order. *)
Inductive greedy_run : list record → loop_state → loop_state → Prop :=
| greedy_done st : greedy_run [] st st
| greedy_next p ps st st' st'' :
    greedy_step p st st' → greedy_run ps st' st'' →
    greedy_run (p :: ps) st st''.
End Greedy.

(** Every record has a non-empty text. *)
Definition texts_nonempty (X : list record) : Prop :=
  Forall (λ r, text_of r ≠ "") X.

(** No two records of one class carry the same text. *)
Definition distinct_within_class (X : list record) : Prop :=
  NoDup ((λ r, (class_of r, text_of r)) <$> X).

(** The record sequence a prediction or gold file stands for. *)
Definition extractions_of (data : parsed) : list record :=
  match data with
  | DataList items => items
  | DataDict fields => default [] (fields !! "extractions")
  | DataOther => []
  end.

(** The (predicted, gold) sequences of the document [stem], when both its
    gold file and its prediction file exist. *)
Definition document_pair (files : gmap string parsed) (stem : string)
  : option (list record * list record) :=
  match files !! (stem ++ ".json"), files !! (stem ++ "_pred.json") with
  | Some g, Some p => Some (extractions_of p, extractions_of g)
  | _, _ => None
  end.

(** The documents of a directory that have both files, in order. *)
Definition document_pairs (dir : samples) : list (list record * list record) :=
  omap (document_pair (json_files dir)) (txt_stems dir).

Definition pooled_pred (dir : samples) : list record :=
  concat (fst <$> document_pairs dir).

Definition pooled_gold (dir : samples) : list record :=
  concat (snd <$> document_pairs dir).

(** A record with the two fields the scorer reads. *)
Definition mk_record (class text : string) : record :=
  <["class" := class]> (<["text" := text]> ∅).

(** Three records of two classes, with different texts. *)
Definition three_records : list record :=
  [mk_record "medication" "Cefazolin"; mk_record "dosage" "250mg";
   mk_record "medication" "Heparin"].

(** A directory with one document: one gold record, no predicted record. *)
Definition one_note : samples :=
  Samples ["note"]
          (<["note.json" := DataList [mk_record "symptom_sign" "fever"]]>
             (<["note_pred.json" := DataList []]> ∅)).

(** A directory with two documents that both have predictions. *)
Definition two_notes : samples :=
  Samples ["a"; "b"]
          (<["a.json" := DataList [mk_record "symptom_sign" "fever"]]>
             (<["a_pred.json" := DataList [mk_record "symptom_sign" "Fever"]]>
                (<["b.json" := DataDict {[ "extractions" :=
                                   [mk_record "medication" "Cefazolin 250mg IV"] ]}]>
                   (<["b_pred.json" := DataList [mk_record "medication" "cefazolin";
                                                  mk_record "dosage" "250mg"]]> ∅)))).

(** ** Words and character classes *)

(** Every character of [s] passes [P]. *)
Fixpoint all_chars (P : ascii → bool) (s : string) : bool :=
  match s with
  | EmptyString => true
  | String c t => P c && all_chars P t
  end.

(** A word: a non-empty text without whitespace. *)
Definition is_word (w : string) : bool :=
  PyStr.truthy w && all_chars (λ c, negb (PyStr.isspace c)) w.

(** [s] is empty or begins with whitespace. *)
Definition head_space (s : string) : bool :=
  match s with
  | EmptyString => true
  | String c _ => PyStr.isspace c
  end.


(** Two records agree on the two fields the scorer reads. *)
Definition same_scoring_fields (r r' : record) : Prop :=
  class_of r = class_of r' ∧ text_of r = text_of r'.

(** [p] and [g] may be paired: same class string, matching texts. *)
Definition compatible (match_ : string → string → bool) (p g : record) : Prop :=
  class_of p = class_of g ∧ match_ (text_of p) (text_of g) = true.


(** The states of the run on [gold] and of the run on [gold ++ extra] after
    the same predicted records: the longer run consumed the same indices of
    [gold], and beyond them only indices of [extra], each counted once. *)
Definition gold_sim (gold extra : list record) (st st' : loop_state) : Prop :=
  st_matched_gold st ⊆ st_matched_gold st'
  ∧ (∀ i, i ∈ st_matched_gold st' → i ∉ st_matched_gold st →
          (length gold ≤ i < length gold + length extra)%nat)
  ∧ st_tp st' = (st_tp st + size (st_matched_gold st' ∖ st_matched_gold st))%nat.


(** The documents of a directory that have both files, with their stems. *)
Definition scored_documents (dir : samples)
  : list (string * (list record * list record)) :=
  omap (λ stem, (λ pg, (stem, pg)) <$> document_pair (json_files dir) stem)
       (txt_stems dir).

(** [fr] is the per-file entry of the document [doc]: its file name and the
    metrics of its predicted against its gold records, partial predicate. *)
Definition scores_document (fr : file_result)
    (doc : string * (list record * list record)) : Prop :=
  file fr = doc.1 ++ ".txt"
  ∧ compute_metrics doc.2.1 doc.2.2 "partial" = Ok (metrics fr).


(** ** extractor.py *)

(** Modelled from the spec: LangExtract's data classes are not part of the
    repository.  The records keep the attributes the code reads or sets:
    [extraction_class], [extraction_text], [attributes] (a dict or [None])
    and [char_interval] ([None], or positions that are an [int] or [None]);
    [text] and [extractions] of a document or of an example. *)
Inductive attr_value : Type :=
| AttrStr (s : string)
| AttrList (l : list string).

Record CharInterval : Type := MkCharInterval {
  start_pos : option Z;
  end_pos : option Z
}.

Record Extraction : Type := MkExtraction {
  extraction_class : string;
  extraction_text : string;
  attributes : option (gmap string attr_value);
  char_interval : option CharInterval
}.

Record ExampleData : Type := MkExampleData {
  ex_text : string;
  ex_extractions : list Extraction
}.

Record AnnotatedDocument : Type := MkAnnotatedDocument {
  extractions : option (list Extraction);
  text : option string
}.

(** The line feed character. *)
Definition nl : string := String (ascii_of_nat 10) EmptyString.

(** The literal handed to [textwrap.dedent]; none of its lines is indented,
    so [dedent] returns it as it is. *)
Definition CLINICAL_PROMPT_literal : string :=
  PyStr.join nl
    [
     "";
     "Extract clinical entities from the text in order of appearance.";
     "Use exact verbatim text for extractions when possible; do not paraphrase or overlap spans.";
     "";
     "Entity types to extract:";
     "- medication: drug name";
     "- dosage: strength/amount (e.g. 10mg, 250 mg)";
     "- route: route of administration (PO, IV, topical, etc.)";
     "- frequency: how often (daily, BID, q4h, etc.)";
     "- duration: length of use (e.g. for one week)";
     "- indication: reason or condition the medication is for";
     "- medication_status: active, discontinued, or as needed";
     "";
     "- diagnosis: condition or diagnosis name";
     "- diagnosis_icd: suggested ICD code if inferable (e.g. I10 for hypertension)";
     "- diagnosis_status: active, resolved, history of";
     "- diagnosis_onset: when it started if mentioned";
     "";
     "- procedure: procedure or intervention name";
     "- procedure_date: when performed if stated";
     "- procedure_laterality: left, right, bilateral if applicable";
     "- procedure_findings: key findings";
     "";
     "- lab_test: name of test";
     "- lab_value: numeric or categorical value";
     "- lab_unit: unit (mg/dL, mmol/L, etc.)";
     "- lab_reference: reference range if given";
     "- lab_interpretation: high, low, normal, abnormal";
     "";
     "- symptom_sign: symptom or sign description";
     "- adverse_event_allergy: substance and reaction (e.g. Penicillin - rash)";
     "- allergy_severity: mild, moderate, severe if stated";
     "";
     "- demographic_age: age if mentioned";
     "- demographic_sex: sex if mentioned";
     "- demographic_dob: date of birth if mentioned";
     "";
     "Use attributes to link related extractions (e.g. medication_group for all fields of one medication).";
     "List entities in order of appearance. Do not invent text that is not in the source.";
     ""].


(** [textwrap.dedent(literal).strip()] *)
Definition CLINICAL_PROMPT : string := PyStr.strip CLINICAL_PROMPT_literal.

(** [lx.data.Extraction(extraction_class=.., extraction_text=.., attributes=..)] *)
Definition example_extraction (class text : string)
    (attrs : option (gmap string attr_value)) : Extraction :=
  MkExtraction class text attrs None.

Definition _example_discharge : ExampleData :=
  MkExampleData
    ("DISCHARGE SUMMARY" +:+ nl +:+ "Patient is a 67 yo M with HTN and DM2. He was given 250 mg IV Cefazolin TID for one week for cellulitis. Home medications: Lisinopril 10 mg PO daily for hypertension, Metformin 500 mg PO BID for diabetes. Allergies: Penicillin - rash. Discharge diagnosis: Cellulitis left lower leg, Hypertension, Type 2 diabetes.")
    [
     example_extraction "demographic_age" "67 yo" (Some ∅);
     example_extraction "demographic_sex" "M" (Some ∅);
     example_extraction "medication" "Cefazolin" (Some {[ "medication_group" := AttrStr "Cefazolin" ]});
     example_extraction "dosage" "250 mg" (Some {[ "medication_group" := AttrStr "Cefazolin" ]});
     example_extraction "route" "IV" (Some {[ "medication_group" := AttrStr "Cefazolin" ]});
     example_extraction "frequency" "TID" (Some {[ "medication_group" := AttrStr "Cefazolin" ]});
     example_extraction "duration" "for one week" (Some {[ "medication_group" := AttrStr "Cefazolin" ]});
     example_extraction "indication" "cellulitis" (Some {[ "medication_group" := AttrStr "Cefazolin" ]});
     example_extraction "medication" "Lisinopril" (Some {[ "medication_group" := AttrStr "Lisinopril" ]});
     example_extraction "dosage" "10 mg" (Some {[ "medication_group" := AttrStr "Lisinopril" ]});
     example_extraction "route" "PO" (Some {[ "medication_group" := AttrStr "Lisinopril" ]});
     example_extraction "frequency" "daily" (Some {[ "medication_group" := AttrStr "Lisinopril" ]});
     example_extraction "indication" "hypertension" (Some {[ "medication_group" := AttrStr "Lisinopril" ]});
     example_extraction "medication" "Metformin" (Some {[ "medication_group" := AttrStr "Metformin" ]});
     example_extraction "dosage" "500 mg" (Some {[ "medication_group" := AttrStr "Metformin" ]});
     example_extraction "route" "PO" (Some {[ "medication_group" := AttrStr "Metformin" ]});
     example_extraction "frequency" "BID" (Some {[ "medication_group" := AttrStr "Metformin" ]});
     example_extraction "indication" "diabetes" (Some {[ "medication_group" := AttrStr "Metformin" ]});
     example_extraction "adverse_event_allergy" "Penicillin - rash" (Some ∅);
     example_extraction "diagnosis" "Cellulitis left lower leg" (Some ∅);
     example_extraction "diagnosis" "Hypertension" (Some ∅);
     example_extraction "diagnosis" "Type 2 diabetes" (Some ∅)].

Definition _example_labs : ExampleData :=
  MkExampleData
    ("Labs: WBC 12.2 K/uL (ref 4.5-11), Hgb 10.1 g/dL (ref 12-16), low. Creatinine 1.4 mg/dL (ref 0.7-1.3), elevated. Rapid flu: negative.")
    [
     example_extraction "lab_test" "WBC" (Some {[ "lab_group" := AttrStr "WBC" ]});
     example_extraction "lab_value" "12.2 K/uL" (Some {[ "lab_group" := AttrStr "WBC" ]});
     example_extraction "lab_reference" "ref 4.5-11" (Some {[ "lab_group" := AttrStr "WBC" ]});
     example_extraction "lab_test" "Hgb" (Some {[ "lab_group" := AttrStr "Hgb" ]});
     example_extraction "lab_value" "10.1 g/dL" (Some {[ "lab_group" := AttrStr "Hgb" ]});
     example_extraction "lab_reference" "ref 12-16" (Some {[ "lab_group" := AttrStr "Hgb" ]});
     example_extraction "lab_interpretation" "low" (Some {[ "lab_group" := AttrStr "Hgb" ]});
     example_extraction "lab_test" "Creatinine" (Some {[ "lab_group" := AttrStr "Creatinine" ]});
     example_extraction "lab_value" "1.4 mg/dL" (Some {[ "lab_group" := AttrStr "Creatinine" ]});
     example_extraction "lab_reference" "ref 0.7-1.3" (Some {[ "lab_group" := AttrStr "Creatinine" ]});
     example_extraction "lab_interpretation" "elevated" (Some {[ "lab_group" := AttrStr "Creatinine" ]});
     example_extraction "lab_test" "Rapid flu" (Some ∅);
     example_extraction "lab_value" "negative" (Some ∅)].

Definition _example_procedures : ExampleData :=
  MkExampleData
    ("CT chest with contrast performed 01/15/2025. Findings: 2 cm nodule in the right upper lobe, no left-sided abnormalities. Echo: EF 55%, mild MR.")
    [
     example_extraction "procedure" "CT chest with contrast" (Some ∅);
     example_extraction "procedure_date" "01/15/2025" (Some ∅);
     example_extraction "procedure_findings" "2 cm nodule in the right upper lobe" (Some {[ "laterality" := AttrStr "right" ]});
     example_extraction "procedure_findings" "no left-sided abnormalities" (Some {[ "laterality" := AttrStr "left" ]});
     example_extraction "procedure" "Echo" (Some ∅);
     example_extraction "procedure_findings" "EF 55%" (Some ∅);
     example_extraction "procedure_findings" "mild MR" (Some ∅)].

Definition _example_symptoms : ExampleData :=
  MkExampleData
    ("Patient presents with 3 days of fever, cough, and shortness of breath. Denies chest pain. No known drug allergies.")
    [
     example_extraction "symptom_sign" "fever" (Some ∅);
     example_extraction "symptom_sign" "cough" (Some ∅);
     example_extraction "symptom_sign" "shortness of breath" (Some ∅);
     example_extraction "symptom_sign" "Denies chest pain" (Some {[ "negated" := AttrStr "true" ]})].

Definition _example_radiology : ExampleData :=
  MkExampleData
    ("CHEST X-RAY: PA and lateral views. Heart size normal. Lungs clear bilaterally. No pleural effusion or pneumothorax. Impression: No acute cardiopulmonary process.")
    [
     example_extraction "procedure" "CHEST X-RAY" (Some ∅);
     example_extraction "procedure_findings" "Heart size normal" (Some ∅);
     example_extraction "procedure_findings" "Lungs clear bilaterally" (Some ∅);
     example_extraction "procedure_findings" "No pleural effusion or pneumothorax" (Some ∅);
     example_extraction "diagnosis" "No acute cardiopulmonary process" (Some ∅)].

Definition _example_medication_only : ExampleData :=
  MkExampleData
    ("Patient was given 250 mg IV Cefazolin TID for one week.")
    [
     example_extraction "dosage" "250 mg" (Some {[ "medication_group" := AttrStr "Cefazolin" ]});
     example_extraction "route" "IV" (Some {[ "medication_group" := AttrStr "Cefazolin" ]});
     example_extraction "medication" "Cefazolin" (Some {[ "medication_group" := AttrStr "Cefazolin" ]});
     example_extraction "frequency" "TID" (Some {[ "medication_group" := AttrStr "Cefazolin" ]});
     example_extraction "duration" "for one week" (Some {[ "medication_group" := AttrStr "Cefazolin" ]})].

Definition get_clinical_examples : list ExampleData :=
  [_example_medication_only;
   _example_discharge;
   _example_labs;
   _example_procedures;
   _example_symptoms;
   _example_radiology].


(** Python values that occur as keyword arguments of [lx.extract] and as
    entries of the exported rows. *)
Inductive pyval : Type :=
| PyNone
| PyBool (b : bool)
| PyInt (z : Z)
| PyStr (s : string)
| PyAttrs (a : gmap string attr_value)
| PyExamples (l : list ExampleData).

(** What [extract] sees of the operating system: the regular files it can
    read, with their decoded content, and the environment variables. *)
Record os_state : Type := OsState {
  regular_files : gmap string string;
  environ : gmap string string
}.

(** The arguments of [extract]; [text_or_path] after [str()]. *)
Record extract_args : Type := ExtractArgs {
  text_or_path : string;
  model_id : string;
  model_url : option string;
  api_key : option string;
  temperature : Q;
  max_tokens : Z;
  extraction_passes : Z;
  max_workers : Z;
  max_char_buffer : Z;
  use_ollama : bool
}.

(** [a or b] on values that are a [str] or [None]. *)
Definition str_or (a b : option string) : option string :=
  match a with
  | Some s => if PyStr.truthy s then a else b
  | None => b
  end.

(** [kwargs[key] = value] under [if value:], for a [str] or [None]. *)
Definition set_if_truthy (key : string) (value : option string)
    (kwargs : gmap string pyval) : gmap string pyval :=
  match value with
  | Some s => if PyStr.truthy s then <[key := PyStr s]> kwargs else kwargs
  | None => kwargs
  end.

(** The keyword arguments [extract] hands to [lx.extract]. *)
Definition extract_kwargs (os : os_state) (a : extract_args)
  : gmap string pyval :=
  let text :=
    match regular_files os !! text_or_path a with
    | Some content => content
    | None => text_or_path a
    end in
  let examples := get_clinical_examples in
  let api_key := str_or (api_key a) (environ os !! "LANGEXTRACT_API_KEY") in
  let kwargs : gmap string pyval :=
    <["text_or_documents" := PyStr text]>
    (<["prompt_description" := PyStr CLINICAL_PROMPT]>
    (<["examples" := PyExamples examples]>
    (<["model_id" := PyStr (model_id a)]>
    (<["extraction_passes" := PyInt (extraction_passes a)]>
    (<["max_workers" := PyInt (max_workers a)]>
    (<["max_char_buffer" := PyInt (max_char_buffer a)]> ∅)))))) in
  let kwargs := set_if_truthy "api_key" api_key kwargs in
  if use_ollama a then
    let kwargs := <["fence_output" := PyBool false]> kwargs in
    let kwargs := <["use_schema_constraints" := PyBool false]> kwargs in
    set_if_truthy "model_url" (model_url a) kwargs
  else kwargs.

(** [extract]: what [lx.extract] returns on these keyword arguments, for any
    [lx.extract]. *)
Definition extract {R : Type} (lx_extract : gmap string pyval → R)
    (os : os_state) (a : extract_args) : R :=
  lx_extract (extract_kwargs os a).

(** The same call with other values for [temperature] and [max_tokens]. *)
Definition with_sampling (a : extract_args) (t : Q) (n : Z) : extract_args :=
  ExtractArgs (text_or_path a) (model_id a) (model_url a) (api_key a) t n
              (extraction_passes a) (max_workers a) (max_char_buffer a)
              (use_ollama a).

(** A computation that returns or raises [TypeError]. *)
Inductive attempt (A : Type) : Type :=
| Done (a : A)
| TypeError.

Arguments Done {A} a.
Arguments TypeError {A}.

(** One bound of a slice of a sequence of length [len]: [None] is the
    default, a negative position counts from the end, and the result is
    clipped to [0 .. len]. *)
Definition slice_bound (len dflt : Z) (i : option Z) : Z :=
  match i with
  | None => dflt
  | Some i => if (i <? 0)%Z then Z.max (i + len) 0 else Z.min i len
  end.

(** [s[start:stop]] *)
Definition getslice (s : string) (start stop : option Z) : string :=
  let len := Z.of_nat (String.length s) in
  let lo := slice_bound len 0 start in
  let hi := slice_bound len len stop in
  String.substring (Z.to_nat lo) (Z.to_nat (hi - lo)) s.

(** An [int] or [None] as a value. *)
Definition of_position (i : option Z) : pyval :=
  match i with
  | Some z => PyInt z
  | None => PyNone
  end.

(** [dict(a) if a else {}] *)
Definition attributes_or_empty (a : option (gmap string attr_value))
  : gmap string attr_value :=
  match a with
  | Some d => if bool_decide (d = ∅) then ∅ else d
  | None => ∅
  end.

(** The body of the loop of [extractions_to_serializable]: the row of one
    extraction.  Subscripting a missing document text raises. *)
Definition serialize_extraction (text : option string) (e : Extraction)
  : attempt (gmap string pyval) :=
  let item : gmap string pyval :=
    <["class" := PyStr (extraction_class e)]>
    (<["text" := PyStr (extraction_text e)]>
    (<["attributes" := PyAttrs (attributes_or_empty (attributes e))]> ∅)) in
  match char_interval e with
  | Some ci =>
      let item := <["start" := of_position (start_pos ci)]> item in
      let item := <["end" := of_position (end_pos ci)]> item in
      match text with
      | Some t =>
          Done (<["snippet" := PyStr (getslice t (start_pos ci) (end_pos ci))]> item)
      | None => TypeError
      end
  | None => Done item
  end.

(** [for e in es: ...; out.append(item)] *)
Fixpoint serialize_all (text : option string) (es : list Extraction)
    (out : list (gmap string pyval)) : attempt (list (gmap string pyval)) :=
  match es with
  | [] => Done out
  | e :: es' =>
      match serialize_extraction text e with
      | Done item => serialize_all text es' (out ++ [item])
      | TypeError => TypeError
      end
  end.

(** Iterating over a missing extraction list raises. *)
Definition extractions_to_serializable (result : AnnotatedDocument)
  : attempt (list (gmap string pyval)) :=
  match extractions result with
  | Some es => serialize_all (text result) es []
  | None => TypeError
  end.

(** The checks on the few-shot examples, as computations. *)
Definition verbatim_in (ex : ExampleData) (e : Extraction) : bool :=
  PyStr.contains (extraction_text e) (ex_text ex).

Definition listed_in_prompt (e : Extraction) : bool :=
  PyStr.contains ("- " ++ extraction_class e ++ ":") CLINICAL_PROMPT.

(** The value of the attribute [key] of [e], when it is a string. *)
Definition str_attribute (key : string) (e : Extraction) : option string :=
  match attributes e with
  | Some d => match d !! key with
              | Some (AttrStr v) => Some v
              | _ => None
              end
  | None => None
  end.

(** [ex] has an extraction of class [class] with the text [v]. *)
Definition has_extraction (ex : ExampleData) (class v : string) : bool :=
  existsb (λ e, String.eqb (extraction_class e) class
                && String.eqb (extraction_text e) v) (ex_extractions ex).

(** The group attribute [key] of [e], if any, names an extraction of class
    [class] of the same example. *)
Definition group_linked (key class : string) (ex : ExampleData)
    (e : Extraction) : bool :=
  match str_attribute key e with
  | Some v => has_extraction ex class v
  | None => true
  end.


(** The entry a key gets from [if value: kwargs[key] = value]. *)
Definition truthy_str (value : option string) : option pyval :=
  match value with
  | Some s => if PyStr.truthy s then Some (PyStr s) else None
  | None => None
  end.


(** A call for a cloud model that still gives an Ollama URL, an empty API
    key and the path of a file that does not exist. *)
Definition cloud_call : extract_args :=
  ExtractArgs "missing.txt" "gemini-2.5-flash" (Some "http://localhost:11434")
              (Some "") (1 # 5) 8192 1 4 2000 false.

Definition sample_os : os_state :=
  OsState {[ "note.txt" := "Fever for 3 days." ]}
          {[ "LANGEXTRACT_API_KEY" := "k-123" ]}.

Definition sample_extractions : list Extraction :=
  [MkExtraction "symptom_sign" "fever" None
                (Some (MkCharInterval (Some 0%Z) (Some 5%Z)));
   MkExtraction "duration" "3 days" (Some ∅) None].

Definition sample_document : AnnotatedDocument :=
  MkAnnotatedDocument (Some sample_extractions) (Some "Fever for 3 days.").


(** ** The exact predicate as an equality of keys *)

(** What the exact predicate compares: the class and the normalised text. *)
Definition scoring_key (r : record) : string * string :=
  (class_of r, normalize_for_match (text_of r)).

(** The keys of a record sequence, with their multiplicities. *)
Definition key_bag (l : list record) : gmultiset (string * string) :=
  list_to_set_disj (scoring_key <$> l).

(** The keys of the gold records that are not consumed yet. *)
Fixpoint free_keys (consumed : gset nat) (gs : list (nat * record))
  : gmultiset (string * string) :=
  match gs with
  | [] => ∅
  | (i, g) :: rest =>
      if bool_decide (i ∈ consumed) then free_keys consumed rest
      else {[+ scoring_key g +]} ⊎ free_keys consumed rest
  end.


(** ** app.py: the evidence tab *)

(** [r.get(key, dflt)] and [r.get(key)] on a row. *)
Definition row_get (r : gmap string pyval) (key : string) (dflt : pyval) : pyval :=
  default dflt (r !! key).

(** [snippet = r.get("snippet", r.get("text", ""))] *)
Definition evidence_snippet (r : gmap string pyval) : pyval :=
  row_get r "snippet" (row_get r "text" (PyStr "")).

(** [start = r.get("start")] and [end = r.get("end")] *)
Definition evidence_span (r : gmap string pyval) : pyval * pyval :=
  (row_get r "start" PyNone, row_get r "end" PyNone).

(** ** compute_metrics on arbitrary field values, with float arithmetic

    The records above hold [str] fields and the quotients are exact.  Two
    things [compute_metrics] does are outside that reading: a field of a
    parsed JSON record can hold any value ([null], a number, a list), and the
    quotients are binary64 floats.  This second reading of the same function
    keeps both.  The two arguments are lists of dicts, as [json.load] gives
    them for an array of objects.  The values that are not a [str], their
    [!=], and the float operations are parameters; [float_laws] lists what
    is used of them. *)

Record py_values : Type := PyValues {
  (** a value that is not a [str] *)
  nonstr : Type;
  (** [a != b] on two such values *)
  nonstr_ne : nonstr → nonstr → bool;
  float : Type;
  (** the literal [0.0] *)
  float_zero : float;
  (** [a / b] on two [int], [b] non-zero *)
  int_truediv : nat → nat → float;
  (** an [int] converted for a mixed operation *)
  float_of_int : nat → float;
  float_mul : float → float → float;
  float_add : float → float → float;
  (** [x / y] on two floats, [y] non-zero *)
  float_div : float → float → float;
  (** [x == 0]: true for both signed zeros *)
  float_is_zero : float → bool;
  (** [x > 0] *)
  float_gt_zero : float → bool
}.

(** The facts of float arithmetic the guards rely on: [0 / n] is [0.0],
    [0.0 + 0.0] is not above zero, and a float above zero is not zero. *)
Record float_laws (A : py_values) : Prop := FloatLaws {
  int_truediv_zero : ∀ n, n ≠ 0%nat → int_truediv A 0 n = float_zero A;
  zero_plus_zero : float_gt_zero A (float_add A (float_zero A) (float_zero A))
                   = false;
  gt_zero_not_zero : ∀ x, float_gt_zero A x = true → float_is_zero A x = false
}.

(** Exact rationals kept in lowest terms, as an instance; the only value
    that is not a [str] is [None]. *)
Definition exact_values : py_values := {|
  nonstr := unit;
  nonstr_ne := λ _ _, false;
  float := Q;
  float_zero := 0%Q;
  int_truediv := λ a b, Qred (of_int a / of_int b);
  float_of_int := of_int;
  float_mul := λ x y, Qred (x * y);
  float_add := λ x y, Qred (x + y);
  float_div := λ x y, Qred (x / y);
  float_is_zero := λ x, Qeq_bool x 0;
  float_gt_zero := positive
|}.

Section AnyValues.
Variable A : py_values.

(** The value of a field. *)
Inductive pyfield : Type :=
| FStr (s : string)
| FOther (v : nonstr A).

(** A record as [json.load] gives it. *)
#[local] Abbreviation record_any := (gmap string pyfield).

(** [d.get(key, "")] *)
Definition field_get (d : record_any) (key : string) : pyfield :=
  default (FStr "") (d !! key).

(** [a != b]: a [str] never equals a value that is not a [str]. *)
Definition field_ne (a b : pyfield) : bool :=
  match a, b with
  | FStr s, FStr t => negb (String.eqb s t)
  | FOther v, FOther w => nonstr_ne A v w
  | _, _ => true
  end.

(** [normalize_for_match(s)]: [s.lower()] exists on a [str] only. *)
Definition normalize_any (s : pyfield) : result string :=
  match s with
  | FStr s => Ok (normalize_for_match s)
  | FOther _ => Raise AttributeError
  end.

(** [partial_match]: [p] is normalised before [g]; the three tests are the
    ones of the [str] version. *)
Definition partial_match_any (pred_text gold_text : pyfield) : result bool :=
  p ← normalize_any pred_text;
  g ← normalize_any gold_text;
  Ok (if negb (PyStr.truthy p) || negb (PyStr.truthy g) then false
      else PyStr.contains p g || PyStr.contains g p).

(** [exact_match]: the left operand of [==] is evaluated first. *)
Definition exact_match_any (pred_text gold_text : pyfield) : result bool :=
  p ← normalize_any pred_text;
  g ← normalize_any gold_text;
  Ok (String.eqb p g).

Definition select_match_any (match_fn : string)
  : pyfield → pyfield → result bool :=
  if String.eqb match_fn "partial" then partial_match_any else exact_match_any.

(** The inner loop; the text predicate is called only on a gold record that
    is still free and whose class does not differ. *)
Fixpoint scan_gold_any (match_ : pyfield → pyfield → result bool)
    (p_class p_text : pyfield) (gs : list (nat * record_any))
    (st : loop_state) : result loop_state :=
  match gs with
  | [] => Ok st
  | (i, g) :: rest =>
      if bool_decide (i ∈ st_matched_gold st) then
        scan_gold_any match_ p_class p_text rest st
      else if field_ne p_class (field_get g "class") then
        scan_gold_any match_ p_class p_text rest st
      else
        hit ← match_ p_text (field_get g "text");
        if hit : bool then
          Ok (LoopState (st_tp st + 1) ({[ i ]} ∪ st_matched_gold st))
        else
          scan_gold_any match_ p_class p_text rest st
  end.

Definition match_one_any (match_ : pyfield → pyfield → result bool)
    (gold : list record_any) (st : loop_state) (p : record_any)
  : result loop_state :=
  scan_gold_any match_ (field_get p "class") (field_get p "text")
                (enumerate gold) st.

Definition match_loop_any (match_ : pyfield → pyfield → result bool)
    (predicted gold : list record_any) : result loop_state :=
  for_each (match_one_any match_ gold) predicted (LoopState 0 ∅).

(** The returned dict, with float ratios. *)
Record metrics_any : Type := MkMetricsAny {
  any_precision : float A;
  any_recall : float A;
  any_f1 : float A;
  any_tp : nat;
  any_pred : nat;
  any_gold : nat
}.

(** [a / b] on two [int]. *)
Definition int_truediv_any (a b : nat) : result (float A) :=
  if (b =? 0)%nat then Raise ZeroDivisionError else Ok (int_truediv A a b).

(** [x / y] on two floats. *)
Definition float_truediv_any (x y : float A) : result (float A) :=
  if float_is_zero A y then Raise ZeroDivisionError else Ok (float_div A x y).

(** [tp / n if n else 0.0] *)
Definition ratio_any (t n : nat) : result (float A) :=
  if (n =? 0)%nat then Ok (float_zero A) else int_truediv_any t n.

(** [2 * p * r / (p + r) if (p + r) > 0 else 0.0] *)
Definition f1_any (p r : float A) : result (float A) :=
  if float_gt_zero A (float_add A p r) then
    float_truediv_any (float_mul A (float_mul A (float_of_int A 2) p) r)
                      (float_add A p r)
  else Ok (float_zero A).

Definition compute_metrics_any (predicted gold : list record_any)
    (match_fn : string) : result metrics_any :=
  st ← match_loop_any (select_match_any match_fn) predicted gold;
  let tp := st_tp st in
  let num_pred := length predicted in
  let num_gold := length gold in
  precision ← ratio_any tp num_pred;
  recall ← ratio_any tp num_gold;
  f1 ← f1_any precision recall;
  Ok (MkMetricsAny precision recall f1 tp num_pred num_gold).

(** The record read as one with [str] fields only. *)
Definition as_any (r : record) : record_any := FStr <$> r.


End AnyValues.

Arguments FStr {A} s.
Arguments FOther {A} v.

Abbreviation record_any A := (gmap string (pyfield A)).



(** ** run_eval on the files of a directory

    [run_eval] above starts from the stems of the text files and from JSON
    files that all parse.  The function starts from the names of the files
    that [glob("*.txt")] yields, derives the two companion names with
    [pathlib], and calls [json.load], which raises on a file that is not a
    JSON document.  This reading keeps the three: [run_eval_files].  The
    content of a file that parses is a [parsed] value, as above. *)

(** The two parts of [name] around its last dot: the text before the dot,
    and the text from the dot on ([name.rfind(".")]); [None] without a dot. *)
Fixpoint rsplit_dot (name : string) : option (string * string) :=
  match name with
  | EmptyString => None
  | String c rest =>
      match rsplit_dot rest with
      | Some (before, from_dot) => Some (String c before, from_dot)
      | None => if Ascii.eqb c "." then Some (EmptyString, name) else None
      end
  end.

(** [PurePath.suffix]: the part from the last dot on, unless that dot is the
    first or the last character of the name ([0 < i < len(name) - 1]). *)
Definition path_suffix (name : string) : string :=
  match rsplit_dot name with
  | Some (before, from_dot) =>
      if PyStr.truthy before && (1 <? String.length from_dot)%nat
      then from_dot else ""
  | None => ""
  end.

(** [PurePath.stem]: the name without that suffix. *)
Definition path_stem (name : string) : string :=
  match rsplit_dot name with
  | Some (before, from_dot) =>
      if PyStr.truthy before && (1 <? String.length from_dot)%nat
      then before else name
  | None => name
  end.

(** [path.with_suffix(suffix)], as a file name: the suffix is replaced, or
    added when the name has none. *)
Definition with_suffix (name suffix : string) : string :=
  if PyStr.truthy (path_suffix name) then path_stem name ++ suffix
  else name ++ suffix.

(** A file of the directory that [run_eval] may open: one that parses, with
    its parsed content, or one that is not a JSON document. *)
Inductive json_file : Type :=
| ValidJson (data : parsed)
| InvalidJson.

(** [json.load(f)] *)
Definition json_load (f : json_file) : result parsed :=
  match f with
  | ValidJson data => Ok data
  | InvalidJson => Raise JSONDecodeError
  end.

(** [load_gold(path)]: the file is parsed, then read by shape. *)
Definition load_gold_file (f : json_file) : result (list record) :=
  data ← json_load f;
  load_gold data.

(** A samples directory: the names [sorted(samples_dir.glob("*.txt"))]
    yields, in that order, and its other files by name. *)
Record directory : Type := Directory {
  txt_names : list string;
  dir_files : gmap string json_file
}.

(** The body of [for txt_path in sorted(samples_dir.glob("*.txt"))]; the gold
    file is loaded before the prediction file is looked for. *)
Definition run_eval_files_body (files : gmap string json_file)
    (st : eval_state) (name : string) : result eval_state :=
  let gold_path := with_suffix name ".json" in
  match files !! gold_path with
  | None => Ok st
  | Some gold_file =>
      gold ← load_gold_file gold_file;
      let pred_path := path_stem name ++ "_pred.json" in
      match files !! pred_path with
      | None => Ok st
      | Some pred_file =>
          pred ← json_load pred_file;
          pred_list ←
            match pred with
            | DataList items => Ok items
            | DataDict fields =>
                if dict_contains fields "extractions"
                then dict_getitem fields "extractions"
                else Ok []
            | DataOther => Ok []
            end;
          metrics ← compute_metrics pred_list gold "partial";
          Ok (EvalState (results st ++ [FileResult name metrics])
                        (all_pred st ++ pred_list)
                        (all_gold st ++ gold))
      end
  end.

Definition run_eval_files (dir : directory) : result report :=
  st ← for_each (run_eval_files_body (dir_files dir)) (txt_names dir)
                (EvalState [] [] []);
  aggregate ← (if nonempty (all_pred st) && nonempty (all_gold st)
               then m ← compute_metrics (all_pred st) (all_gold st) "partial";
                    Ok (Some m)
               else Ok None);
  Ok (Report (results st) aggregate).

(** The (predicted, gold) sequences of the text file [name], when its gold
    file and its prediction file both exist and parse. *)
Definition file_pair (files : gmap string json_file) (name : string)
  : option (list record * list record) :=
  match files !! with_suffix name ".json",
        files !! (path_stem name ++ "_pred.json") with
  | Some (ValidJson g), Some (ValidJson p) =>
      Some (extractions_of p, extractions_of g)
  | _, _ => None
  end.

(** The text files that have both companions, in order, with their names. *)
Definition scored_files (dir : directory)
  : list (string * (list record * list record)) :=
  omap (λ name, (λ pg, (name, pg)) <$> file_pair (dir_files dir) name)
       (txt_names dir).

(** [fr] is the per-file entry of [doc]: the name of the text file itself,
    and the metrics of its predicted against its gold records. *)
Definition scores_file (fr : file_result)
    (doc : string * (list record * list record)) : Prop :=
  file fr = doc.1
  ∧ compute_metrics doc.2.1 doc.2.2 "partial" = Ok (metrics fr).

(** The loop passes over [name] without any effect: it has no gold file, or
    a gold file that parses and no prediction file. *)
Definition passed_over (files : gmap string json_file) (name : string) : bool :=
  match files !! with_suffix name ".json" with
  | None => true
  | Some (ValidJson _) =>
      bool_decide (files !! (path_stem name ++ "_pred.json") = None)
  | Some InvalidJson => false
  end.

(** A directory whose text files have unusual names: a bare [.txt], a name
    with two dots, and a plain one without a prediction file. *)
Definition dotted_names : directory :=
  Directory [".txt"; "a.b.txt"; "c.txt"]
    (<[".txt.json" := ValidJson (DataList [mk_record "symptom_sign" "fever"])]>
       (<[".txt_pred.json" := ValidJson (DataList [mk_record "symptom_sign" "Fever"])]>
          (<["a.b.json" := ValidJson (DataDict ∅)]>
             (<["a.b_pred.json" := ValidJson (DataList [mk_record "dosage" "250mg"])]>
                (<["c.json" := ValidJson (DataList [])]> ∅))))).

(** A directory whose one text file has a gold file that does not parse and
    no prediction file. *)
Definition broken_gold : directory :=
  Directory ["note.txt"] (<["note.json" := InvalidJson]> ∅).

(** * Properties *)

#[local] Set Warnings "-clear-no-such-hyp".

(** ** Strings *)

Lemma truthy_true (s : string) : PyStr.truthy s = true ↔ s ≠ "".
Proof. destruct s; simpl; split; congruence. Qed.

Lemma truthy_false (s : string) : PyStr.truthy s = false ↔ s = "".
Proof. destruct s; simpl; split; congruence. Qed.

Lemma startswith_spec (s p : string) :
  PyStr.startswith s p = true ↔ ∃ after : string, s = p ++ after.
Proof.
  revert s. induction p as [|a p IH]; intros s; simpl.
  - split; [intros _; by exists s | done].
  - destruct s as [|b s].
    + split; [done | intros [after H]; discriminate H].
    + rewrite andb_true_iff, Ascii.eqb_eq, IH. split.
      * intros [-> [after ->]]. by exists after.
      * intros [after H]. injection H as -> ->. eauto.
Qed.

Lemma contains_spec (needle hay : string) :
  PyStr.contains needle hay = true ↔ substring_of needle hay.
Proof.
  unfold substring_of. induction hay as [|c hay IH].
  - simpl. rewrite orb_false_r, startswith_spec. split.
    + intros [after H]. by exists "", after.
    + intros [before [after H]]. destruct before; [by exists after|discriminate H].
  - cbn [PyStr.contains]. rewrite orb_true_iff, IH, startswith_spec. split.
    + intros [[after H] | [before [after H]]].
      * by exists "", after.
      * exists (String c before), after. simpl. by rewrite H.
    + intros [[|b before] [after H]].
      * left. by exists after.
      * right. simpl in H. injection H as _ ->. by exists before, after.
Qed.

Lemma exact_match_spec (a b : string) :
  exact_match a b = true ↔ normalize_for_match a = normalize_for_match b.
Proof. unfold exact_match. apply String.eqb_eq. Qed.

Lemma partial_match_spec (a b : string) :
  partial_match a b = true ↔
    normalize_for_match a ≠ "" ∧ normalize_for_match b ≠ "" ∧
    (substring_of (normalize_for_match a) (normalize_for_match b)
     ∨ substring_of (normalize_for_match b) (normalize_for_match a)).
Proof.
  unfold partial_match. rewrite <- !truthy_true, <- !contains_spec.
  destruct (PyStr.truthy (normalize_for_match a)),
           (PyStr.truthy (normalize_for_match b)); simpl;
    rewrite ?orb_true_iff; intuition congruence.
Qed.

Lemma select_match_partial : select_match "partial" = partial_match.
Proof. reflexivity. Qed.

Lemma select_match_other (match_fn : string) :
  match_fn ≠ "partial" → select_match match_fn = exact_match.
Proof.
  intros H. unfold select_match.
  destruct (String.eqb_spec match_fn "partial"); done.
Qed.

Local Open Scope nat_scope.
Local Open Scope list_scope.

(** ** Arithmetic of the metrics *)

Lemma truediv_ok (a b : Q) : ¬ (b == 0)%Q → truediv a b = Ok (a / b)%Q.
Proof.
  intros H. unfold truediv.
  destruct (Qeq_bool b 0) eqn:E; [|done].
  apply Qeq_bool_iff in E. contradiction.
Qed.

Lemma positive_spec (x : Q) : positive x = true ↔ (0 < x)%Q.
Proof.
  unfold positive. rewrite negb_true_iff. split.
  - intros H. apply Qnot_le_lt. intros Hle.
    apply Qle_bool_iff in Hle. congruence.
  - intros H. destruct (Qle_bool x 0) eqn:E; [|done].
    apply Qle_bool_iff in E. exfalso. eapply Qlt_not_le; eauto.
Qed.

Lemma of_int_nonzero (n : nat) : n ≠ 0 → ¬ (of_int n == 0)%Q.
Proof.
  intros Hn H. unfold of_int, Qeq in H. simpl in H. lia.
Qed.

Lemma of_int_nonneg (n : nat) : (0 <= of_int n)%Q.
Proof. unfold of_int, Qle. simpl. lia. Qed.

Lemma of_int_pos (n : nat) : n ≠ 0 → (0 < of_int n)%Q.
Proof. intros Hn. unfold of_int, Qlt. simpl. lia. Qed.

Lemma of_int_le (a b : nat) : (a ≤ b)%nat → (of_int a <= of_int b)%Q.
Proof. intros H. unfold of_int, Qle. simpl. lia. Qed.

(** The guarded quotient [tp / n if n else 0.0]. *)
Lemma guarded_ratio_ok (a n : nat) :
  (if (n =? 0)%nat then Ok 0%Q else truediv (of_int a) (of_int n))
  = Ok (if (n =? 0)%nat then 0%Q else (of_int a / of_int n)%Q).
Proof.
  destruct (Nat.eqb_spec n 0) as [->|Hn]; [done|].
  by apply truediv_ok, of_int_nonzero.
Qed.

(** The guarded harmonic mean. *)
Lemma guarded_f1_ok (p r : Q) :
  (if positive (p + r) then truediv (2 * p * r) (p + r) else Ok 0%Q)
  = Ok (if positive (p + r) then (2 * p * r / (p + r))%Q else 0%Q).
Proof.
  destruct (positive (p + r)) eqn:E; [|done].
  apply truediv_ok. apply positive_spec in E. intros H. rewrite H in E.
  by apply Qlt_irrefl in E.
Qed.

(** [compute_metrics] returns, and what it returns. *)
Lemma compute_metrics_returns (predicted gold : list record) (match_fn : string) :
  let t := st_tp (match_loop (select_match match_fn) predicted gold) in
  let p := if (length predicted =? 0)%nat then 0%Q
           else (of_int t / of_int (length predicted))%Q in
  let r := if (length gold =? 0)%nat then 0%Q
           else (of_int t / of_int (length gold))%Q in
  let f := if positive (p + r) then (2 * p * r / (p + r))%Q else 0%Q in
  compute_metrics predicted gold match_fn
  = Ok (MkMetrics p r f t (length predicted) (length gold)).
Proof.
  intros t p r f. unfold compute_metrics.
  rewrite !guarded_ratio_ok. cbn [mbind result_bind].
  fold t. fold p. fold r. rewrite guarded_f1_ok. reflexivity.
Qed.

(** ** The matching loop *)

Section Loop.
Variable match_ : string → string → bool.

(** The inner loop stops at the first index that passes the test, and
    changes nothing when no index does. *)
Lemma scan_gold_first (p_class p_text : string) (l : list record)
    (k : nat) (st : loop_state) :
  (∃ j g, l !! j = Some g ∧ takes match_ st p_class p_text (k + j) g
          ∧ (∀ j' g', (j' < j)%nat → l !! j' = Some g' →
                      ¬ takes match_ st p_class p_text (k + j') g')
          ∧ scan_gold match_ p_class p_text (enumerate_from k l) st
            = LoopState (st_tp st + 1) ({[ (k + j)%nat ]} ∪ st_matched_gold st))
  ∨ ((∀ j g, l !! j = Some g → ¬ takes match_ st p_class p_text (k + j) g)
     ∧ scan_gold match_ p_class p_text (enumerate_from k l) st = st).
Proof.
  revert k. induction l as [|x l IH]; intros k.
  - right. split; [intros j g H; by rewrite lookup_nil in H | done].
  - cbn [enumerate_from scan_gold].
    assert (Hskip : ¬ takes match_ st p_class p_text k x →
      (∃ j g, (x :: l) !! j = Some g ∧ takes match_ st p_class p_text (k + j) g
          ∧ (∀ j' g', (j' < j)%nat → (x :: l) !! j' = Some g' →
                      ¬ takes match_ st p_class p_text (k + j') g')
          ∧ scan_gold match_ p_class p_text (enumerate_from (S k) l) st
            = LoopState (st_tp st + 1) ({[ (k + j)%nat ]} ∪ st_matched_gold st))
      ∨ ((∀ j g, (x :: l) !! j = Some g → ¬ takes match_ st p_class p_text (k + j) g)
         ∧ scan_gold match_ p_class p_text (enumerate_from (S k) l) st = st)).
    { intros Hx. destruct (IH (S k)) as [(j & g & Hj & Ht & Hmin & Heq)|[Hno Heq]].
      - left. exists (S j), g. replace (k + S j)%nat with (S k + j)%nat by lia.
        split_and!; [done|done| |done].
        intros [|j'] g' Hlt Hl.
        + simpl in Hl. injection Hl as <-. by rewrite Nat.add_0_r.
        + replace (k + S j')%nat with (S k + j')%nat by lia.
          apply Hmin; [lia|done].
      - right. split; [|done]. intros [|j] g Hl.
        + simpl in Hl. injection Hl as <-. by rewrite Nat.add_0_r.
        + replace (k + S j)%nat with (S k + j)%nat by lia. by apply Hno. }
    case_bool_decide as Hin.
    { apply Hskip. intros [? _]. done. }
    destruct (String.eqb_spec p_class (dict_get x "class" "")) as [Hc|Hc]; simpl.
    2:{ apply Hskip. intros (_ & ? & _). done. }
    destruct (match_ p_text (dict_get x "text" "")) eqn:Hm.
    2:{ apply Hskip. intros (_ & _ & ?). unfold text_of in *. congruence. }
    left. exists 0%nat, x. rewrite Nat.add_0_r.
    split_and!; [done|by split_and!| |done].
    intros j' g' Hlt. lia.
Qed.

Variable gold : list record.

Lemma takes_eligible (st : loop_state) (p : record) (i : nat) :
  eligible match_ gold (st_matched_gold st) p i
  ↔ ∃ g, gold !! i = Some g ∧ takes match_ st (class_of p) (text_of p) i g.
Proof.
  unfold eligible, takes. split.
  - intros (Hi & g & Hg & Hc & Hm). by exists g.
  - intros (g & Hg & Hi & Hc & Hm). split; [done|by exists g].
Qed.

(** One round of the outer loop is one greedy step. *)
Lemma match_one_step (st : loop_state) (p : record) :
  greedy_step match_ gold p st (match_one match_ gold st p).
Proof.
  unfold match_one, enumerate.
  destruct (scan_gold_first (dict_get p "class" "") (dict_get p "text" "")
              gold 0 st) as [(j & g & Hj & Ht & Hmin & ->)|[Hno ->]].
  - simpl. apply greedy_hit.
    + apply takes_eligible. eauto.
    + intros j' Hlt [g' [Hg' Ht']]%takes_eligible. by eapply (Hmin j' g').
  - apply greedy_miss. intros i [g [Hg Ht]]%takes_eligible.
    by eapply (Hno i g).
Qed.

Lemma greedy_step_functional (p : record) (st st1 st2 : loop_state) :
  greedy_step match_ gold p st st1 → greedy_step match_ gold p st st2 →
  st1 = st2.
Proof.
  intros H1 H2. destruct H1 as [st i Hi Hmin|st Hno]; inversion H2 as [? i' Hi' Hmin'|? Hno']; subst.
  - assert (i = i') as ->; [|done].
    destruct (Nat.lt_total i i') as [Hlt|[->|Hlt]]; [|done|].
    + by destruct (Hmin' i Hlt).
    + by destruct (Hmin i' Hlt).
  - by destruct (Hno' i).
  - by destruct (Hno i').
  - done.
Qed.

Lemma greedy_run_functional (ps : list record) (st st1 st2 : loop_state) :
  greedy_run match_ gold ps st st1 → greedy_run match_ gold ps st st2 →
  st1 = st2.
Proof.
  intros H1. revert st2. induction H1 as [st|p ps st st' st'' Hs Hr IH];
    intros st2 H2; inversion H2 as [|? ? ? stm ? Hs' Hr']; subst; [done|].
  apply IH. by rewrite (greedy_step_functional _ _ _ _ Hs Hs').
Qed.

(** The outer loop runs the greedy steps in input order. *)
Lemma fold_match_one_run (ps : list record) (st : loop_state) :
  greedy_run match_ gold ps st (fold_left (match_one match_ gold) ps st).
Proof.
  revert st. induction ps as [|p ps IH]; intros st; simpl.
  - constructor.
  - econstructor; [apply match_one_step | apply IH].
Qed.

End Loop.

(** Goals of the form [∃ m, compute_metrics .. = Ok m ∧ ..]: name the value
    the call returns and go on with the rest. *)
Ltac metrics_returned :=
  eexists; split; [apply compute_metrics_returns|];
  cbn [precision recall f1 tp num_pred num_gold].

(** ** Counting invariants of the loop *)

Section Counting.
Variable match_ : string → string → bool.
Variable gold : list record.

(** A round of the outer loop leaves the state alone or consumes exactly
    one gold index, which was free until then. *)
Lemma match_one_cases (st : loop_state) (p : record) :
  match_one match_ gold st p = st
  ∨ ∃ i, (i < length gold)%nat ∧ (i ∉ st_matched_gold st)
         ∧ match_one match_ gold st p
           = LoopState (st_tp st + 1) ({[ i ]} ∪ st_matched_gold st).
Proof.
  destruct (match_one_step match_ gold st p) as [st i [Hi (g & Hg & _)] _|st _].
  - right. exists i. split_and!; [|done|done]. by eapply lookup_lt_Some.
  - by left.
Qed.

(** [tp] is the number of consumed gold indices, all of them indices of
    [gold], and it grew by at most one per predicted record. *)
Lemma fold_match_one_count (ps : list record) (st : loop_state) :
  st_tp st = size (st_matched_gold st) →
  (∀ i, i ∈ st_matched_gold st → (i < length gold)%nat) →
  let st' := fold_left (match_one match_ gold) ps st in
  st_tp st' = size (st_matched_gold st')
  ∧ (∀ i, i ∈ st_matched_gold st' → (i < length gold)%nat)
  ∧ (st_tp st' ≤ st_tp st + length ps)%nat.
Proof.
  revert st. induction ps as [|p ps IH]; intros st Htp Hidx; simpl.
  - split_and!; [done|done|lia].
  - destruct (match_one_cases st p) as [->|(i & Hlt & Hfree & ->)].
    + destruct (IH st Htp Hidx) as (? & ? & ?). split_and!; [done|done|lia].
    + destruct (IH (LoopState (st_tp st + 1) ({[ i ]} ∪ st_matched_gold st)))
        as (? & ? & Hle).
      * simpl. rewrite size_union by set_solver. rewrite size_singleton. lia.
      * simpl. intros j [->%elem_of_singleton|?]%elem_of_union; auto.
      * simpl in Hle. split_and!; [done|done|lia].
Qed.

Lemma match_loop_count (predicted : list record) :
  let st := match_loop match_ predicted gold in
  st_tp st = size (st_matched_gold st)
  ∧ (st_tp st ≤ length predicted)%nat
  ∧ (st_tp st ≤ length gold)%nat.
Proof.
  intros st. subst st. unfold match_loop.
  destruct (fold_match_one_count predicted (LoopState 0 ∅))
    as (Htp & Hidx & Hle); [done|set_solver|].
  simpl in Hle. split_and!; [done|lia|].
  rewrite Htp.
  rewrite <- (size_set_seq (C:=gset nat) 0 (length gold)).
  apply subseteq_size. intros i Hi. apply elem_of_set_seq.
  specialize (Hidx i Hi). lia.
Qed.

(** Scoring a sequence against itself under a predicate that relates every
    text of the sequence to itself pairs index [k] with index [k]. *)
Lemma fold_match_one_self (X pre ps : list record) :
  gold = X → X = pre ++ ps →
  (∀ r, r ∈ X → match_ (text_of r) (text_of r) = true) →
  fold_left (match_one match_ gold) ps
            (LoopState (length pre) (set_seq 0 (length pre)))
  = LoopState (length X) (set_seq 0 (length X)).
Proof.
  intros Hgold. revert pre. induction ps as [|p ps IH]; intros pre HX Hrefl.
  - simpl. rewrite HX, app_nil_r. done.
  - simpl.
    assert (Hstep : match_one match_ gold
              (LoopState (length pre) (set_seq 0 (length pre))) p
            = LoopState (length (pre ++ [p])) (set_seq 0 (length (pre ++ [p])))).
    { eapply greedy_step_functional; [apply match_one_step|].
      rewrite length_app. simpl length.
      replace (length pre + 1)%nat with (S (length pre)) at 2 by lia.
      rewrite set_seq_S_end_union_L. simpl.
      apply (greedy_hit match_ gold p
               (LoopState (length pre) (set_seq 0 (length pre))) (length pre)).
      - split; simpl.
        + rewrite elem_of_set_seq. lia.
        + exists p. rewrite Hgold, HX. split_and!.
          * by rewrite list_lookup_middle.
          * done.
          * apply Hrefl. rewrite HX. set_solver.
      - simpl. intros j Hlt [Hfree _]. apply Hfree.
        rewrite elem_of_set_seq. lia. }
    rewrite Hstep. apply IH; [|done].
    by rewrite HX, <- app_assoc.
Qed.

Lemma match_loop_self (X : list record) :
  gold = X →
  (∀ r, r ∈ X → match_ (text_of r) (text_of r) = true) →
  st_tp (match_loop match_ X gold) = length X.
Proof.
  intros Hgold Hrefl. unfold match_loop.
  change (LoopState 0 ∅) with (LoopState (length (@nil record)) (set_seq 0 (length (@nil record)))).
  by rewrite (fold_match_one_self X [] X).
Qed.

End Counting.

(** ** Bounds on the three ratios *)

Lemma guarded_ratio_bounds (a n : nat) :
  a ≤ n →
  (0 <= (if n =? 0 then 0 else of_int a / of_int n) <= 1)%Q.
Proof.
  intros Hle. destruct (Nat.eqb_spec n 0) as [->|Hn]; [split; discriminate|].
  pose proof (of_int_pos n Hn) as Hpos. split.
  - apply Qle_shift_div_l; [done|]. rewrite Qmult_0_l. apply of_int_nonneg.
  - apply Qle_shift_div_r; [done|]. rewrite Qmult_1_l. by apply of_int_le.
Qed.

Lemma guarded_ratio_zero (n : nat) :
  ((if n =? 0 then 0 else of_int 0 / of_int n) == 0)%Q.
Proof.
  destruct (n =? 0); [reflexivity|]. unfold Qdiv. apply Qmult_0_l.
Qed.

Lemma guarded_f1_bounds (p r : Q) :
  (0 <= p <= 1)%Q → (0 <= r <= 1)%Q →
  (0 <= (if positive (p + r) then 2 * p * r / (p + r) else 0) <= 1)%Q.
Proof.
  intros [Hp0 Hp1] [Hr0 Hr1].
  destruct (positive (p + r)) eqn:E; [|split; discriminate].
  apply positive_spec in E. split.
  - apply Qle_shift_div_l; [done|]. nra.
  - apply Qle_shift_div_r; [done|]. nra.
Qed.

Lemma guarded_f1_zero (p r : Q) :
  (p == 0)%Q → (r == 0)%Q →
  ((if positive (p + r) then 2 * p * r / (p + r) else 0) == 0)%Q.
Proof.
  intros Hp Hr. destruct (positive (p + r)) eqn:E; [|reflexivity].
  apply positive_spec in E. rewrite Hp, Hr in E. discriminate E.
Qed.

Lemma guarded_ratio_one (n : nat) :
  n ≠ 0 → ((if n =? 0 then 0 else of_int n / of_int n) == 1)%Q.
Proof.
  intros Hn. destruct (Nat.eqb_spec n 0) as [|_]; [done|].
  apply Qmult_inv_r. by apply of_int_nonzero.
Qed.

Lemma guarded_f1_one (p r : Q) :
  (p == 1)%Q → (r == 1)%Q →
  ((if positive (p + r) then 2 * p * r / (p + r) else 0) == 1)%Q.
Proof.
  intros Hp Hr. destruct (positive (p + r)) eqn:E.
  - rewrite Hp, Hr. reflexivity.
  - exfalso. apply not_true_iff_false in E. apply E, positive_spec.
    rewrite Hp, Hr. reflexivity.
Qed.

(** ** A single gold record *)

Lemma match_one_single_hit (match_ : string → string → bool)
    (g p : record) (st : loop_state) :
  0 ∉ st_matched_gold st → class_of p = class_of g →
  match_ (text_of p) (text_of g) = true →
  match_one match_ [g] st p
  = LoopState (st_tp st + 1) ({[ 0 ]} ∪ st_matched_gold st).
Proof.
  intros Hfree Hc Hm. unfold match_one, enumerate, class_of, text_of in *.
  cbn [enumerate_from scan_gold].
  rewrite bool_decide_eq_false_2 by done.
  by rewrite Hc, String.eqb_refl, Hm.
Qed.

Lemma match_one_single_used (match_ : string → string → bool)
    (g p : record) (st : loop_state) :
  0 ∈ st_matched_gold st → match_one match_ [g] st p = st.
Proof.
  intros Hused. unfold match_one, enumerate. cbn [enumerate_from scan_gold].
  by rewrite bool_decide_eq_true_2.
Qed.

Lemma match_one_single_other_class (match_ : string → string → bool)
    (g p : record) (st : loop_state) :
  class_of p ≠ class_of g → match_one match_ [g] st p = st.
Proof.
  intros Hne. unfold match_one, enumerate, class_of in *.
  cbn [enumerate_from scan_gold].
  destruct (String.eqb_spec (dict_get p "class" "") (dict_get g "class" ""));
    [done|]. by destruct (bool_decide _).
Qed.

(** ** The scorer *)

(** C1. The true-positive count of [compute_metrics] is the one of the greedy
    first-match run: the predicted records are taken in input order, each one
    consumes the first gold index that is still free, carries the very same
    class string and passes the text predicate, and then looks no further;
    the run is determined by the inputs.  A predicted and a gold record whose
    class strings differ are never paired, whatever their texts. *)
Theorem C1_greedy_first_match (predicted gold : list record) (match_fn : string) :
  let final := match_loop (select_match match_fn) predicted gold in
  (∃ m, compute_metrics predicted gold match_fn = Ok m ∧ tp m = st_tp final)
  ∧ greedy_run (select_match match_fn) gold predicted (LoopState 0 ∅) final
  ∧ (∀ st, greedy_run (select_match match_fn) gold predicted (LoopState 0 ∅) st →
           st = final)
  ∧ (∀ p g : record, class_of p ≠ class_of g →
       ∃ m, compute_metrics [p] [g] match_fn = Ok m ∧ tp m = 0).
Proof.
  intros final. split_and!.
  - eexists. split; [apply compute_metrics_returns|done].
  - apply fold_match_one_run.
  - intros st Hst. eapply greedy_run_functional; [exact Hst|].
    apply fold_match_one_run.
  - intros p g Hne. metrics_returned. unfold match_loop. cbn [fold_left].
    by rewrite match_one_single_other_class.
Qed.

Lemma C1_greedy_first_match_witness :
  class_of (mk_record "medication" "Cefazolin")
    ≠ class_of (mk_record "dosage" "Cefazolin")
  ∧ (∃ m, compute_metrics [mk_record "medication" "Cefazolin"]
                          [mk_record "dosage" "Cefazolin"] "exact" = Ok m
          ∧ tp m = 0)
  ∧ class_of (mk_record "Medication" "Cefazolin")
      ≠ class_of (mk_record "medication" "Cefazolin")
  ∧ (∃ m, compute_metrics [mk_record "Medication" "Cefazolin"]
                          [mk_record "medication" "Cefazolin"] "partial" = Ok m
          ∧ tp m = 0).
Proof.
  assert (H1 : class_of (mk_record "medication" "Cefazolin")
               ≠ class_of (mk_record "dosage" "Cefazolin")).
  { vm_compute. discriminate. }
  assert (H2 : class_of (mk_record "Medication" "Cefazolin")
               ≠ class_of (mk_record "medication" "Cefazolin")).
  { vm_compute. discriminate. }
  split; [exact H1|]. split.
  - exact (proj2 (proj2 (proj2 (C1_greedy_first_match [] [] "exact"))) _ _ H1).
  - split; [exact H2|].
    exact (proj2 (proj2 (proj2 (C1_greedy_first_match [] [] "partial"))) _ _ H2).
Defined.

(** *** The function on arbitrary field values *)

Lemma exact_values_laws : float_laws exact_values.
Proof.
  split.
  - intros n Hn. cbn.
    change 0%Q with (Qred 0). apply Qred_complete.
    unfold of_int. simpl. unfold Qdiv. apply Qmult_0_l.
  - reflexivity.
  - intros x. cbn. unfold positive. intros H.
    apply negb_true_iff in H.
    destruct (Qeq_bool x 0) eqn:E; [|done].
    apply Qeq_bool_iff in E.
    assert (Hle : Qle_bool x 0 = true).
    { apply Qle_bool_iff. rewrite E. apply Qle_refl. }
    congruence.
Qed.

Section AnyValuesFacts.
Variable A : py_values.















Lemma ratio_any_returns (t n : nat) :
  ratio_any A t n
  = Ok (if n =? 0 then float_zero A else int_truediv A t n).
Proof.
  unfold ratio_any, int_truediv_any. by destruct (n =? 0).
Qed.

Hypothesis laws : float_laws A.

Lemma f1_any_returns (p r : float A) :
  f1_any A p r
  = Ok (if float_gt_zero A (float_add A p r)
        then float_div A (float_mul A (float_mul A (float_of_int A 2) p) r)
                       (float_add A p r)
        else float_zero A).
Proof.
  unfold f1_any, float_truediv_any.
  destruct (float_gt_zero A (float_add A p r)) eqn:E; [|done].
  by rewrite (gt_zero_not_zero A laws _ E).
Qed.



(** What [compute_metrics_any] returns once the loop has returned. *)
Lemma compute_metrics_any_after_loop (predicted gold : list (record_any A))
    (match_fn : string) (st : loop_state) :
  match_loop_any A (select_match_any A match_fn) predicted gold = Ok st →
  let p := if length predicted =? 0 then float_zero A
           else int_truediv A (st_tp st) (length predicted) in
  let r := if length gold =? 0 then float_zero A
           else int_truediv A (st_tp st) (length gold) in
  compute_metrics_any A predicted gold match_fn
  = Ok (MkMetricsAny A p r
          (if float_gt_zero A (float_add A p r)
           then float_div A (float_mul A (float_mul A (float_of_int A 2) p) r)
                          (float_add A p r)
           else float_zero A)
          (st_tp st) (length predicted) (length gold)).
Proof.
  intros Hloop. unfold compute_metrics_any. rewrite Hloop. cbn.
  rewrite !ratio_any_returns. cbn. rewrite f1_any_returns. done.
Qed.

End AnyValuesFacts.




(** C8. For every predicted and gold sequence, the empty ones included, the
    precision, the recall and the F1 that [compute_metrics] returns lie
    between 0 and 1. *)
Theorem C8_ratios_in_unit_interval (predicted gold : list record) (match_fn : string) :
  ∃ m, compute_metrics predicted gold match_fn = Ok m
    ∧ (0 <= precision m <= 1)%Q
    ∧ (0 <= recall m <= 1)%Q
    ∧ (0 <= f1 m <= 1)%Q.
Proof.
  metrics_returned.
  destruct (match_loop_count (select_match match_fn) gold predicted)
    as (_ & Hlp & Hlg).
  pose proof (guarded_ratio_bounds _ _ Hlp) as Hp.
  pose proof (guarded_ratio_bounds _ _ Hlg) as Hr.
  split_and!; [apply Hp|apply Hp|apply Hr|apply Hr| |];
    by apply guarded_f1_bounds.
Qed.

(** C5. A round of the matching loop consumes at most one gold index, and
    only one no earlier round consumed; the true-positive count is the number
    of consumed gold indices and is at most [min |predicted| |gold|].  Two
    predicted records that share the class of the single gold record and both
    match it give [tp = 1], precision 1/2 and recall 1. *)
Theorem C5_one_to_one (predicted gold : list record) (match_fn : string) :
  let match_ := select_match match_fn in
  let final := match_loop match_ predicted gold in
  (∀ st p, match_one match_ gold st p = st
           ∨ ∃ i, i < length gold ∧ (i ∉ st_matched_gold st)
                  ∧ match_one match_ gold st p
                    = LoopState (st_tp st + 1) ({[ i ]} ∪ st_matched_gold st))
  ∧ st_tp final = size (st_matched_gold final)
  ∧ (∃ m, compute_metrics predicted gold match_fn = Ok m
          ∧ tp m = st_tp final
          ∧ tp m ≤ Nat.min (length predicted) (length gold))
  ∧ (∀ p1 p2 g : record,
       class_of p1 = class_of g → class_of p2 = class_of g →
       match_ (text_of p1) (text_of g) = true →
       match_ (text_of p2) (text_of g) = true →
       ∃ m, compute_metrics [p1; p2] [g] match_fn = Ok m
            ∧ tp m = 1 ∧ (precision m == 1 # 2)%Q ∧ (recall m == 1)%Q).
Proof.
  intros match_ final.
  destruct (match_loop_count match_ gold predicted) as (Hsize & Hlp & Hlg).
  split_and!.
  - apply match_one_cases.
  - exact Hsize.
  - metrics_returned.
    split; [done|]. subst final match_. lia.
  - intros p1 p2 g Hc1 Hc2 Hm1 Hm2.
    metrics_returned.
    fold match_.
    assert (Ht : st_tp (match_loop match_ [p1; p2] [g]) = 1).
    { unfold match_loop. cbn [fold_left].
      rewrite (match_one_single_hit match_ g p1) by (done || set_solver).
      rewrite match_one_single_used by set_solver. done. }
    rewrite Ht. split_and!; [done|reflexivity|reflexivity].
Qed.

Lemma C5_one_to_one_witness :
  ∃ m, compute_metrics [mk_record "symptom_sign" "fever";
                        mk_record "symptom_sign" "fever"]
                       [mk_record "symptom_sign" "fever"] "partial" = Ok m
       ∧ tp m = 1 ∧ (precision m == 1 # 2)%Q ∧ (recall m == 1)%Q.
Proof.
  apply (proj2 (proj2 (proj2 (C5_one_to_one [] [] "partial"))));
    vm_compute; reflexivity.
Defined.

(** C10. Every [match_fn] other than ["partial"] selects the exact predicate:
    the call returns what it returns for ["exact"], it is never refused, and
    it does not behave as the partial predicate. *)
Theorem C10_other_match_fn_is_exact (match_fn : string) :
  match_fn ≠ "partial"%string →
  select_match match_fn = exact_match
  ∧ (∀ predicted gold,
       compute_metrics predicted gold match_fn
       = compute_metrics predicted gold "exact")
  ∧ (∀ predicted gold, ∃ m, compute_metrics predicted gold match_fn = Ok m)
  ∧ (∃ predicted gold,
       compute_metrics predicted gold match_fn
       ≠ compute_metrics predicted gold "partial").
Proof.
  intros Hne. pose proof (select_match_other match_fn Hne) as Hsel.
  assert (Heq : ∀ predicted gold,
             compute_metrics predicted gold match_fn
             = compute_metrics predicted gold "exact").
  { intros predicted gold. unfold compute_metrics. by rewrite Hsel. }
  split_and!; [done|done| |].
  - intros predicted gold. eexists. apply compute_metrics_returns.
  - exists [mk_record "medication" "cefazolin"],
           [mk_record "medication" "Cefazolin 250mg IV"].
    rewrite Heq. vm_compute. discriminate.
Qed.

Lemma C10_other_match_fn_is_exact_witness :
  "fuzzy"%string ≠ "partial"%string
  ∧ select_match "fuzzy" = exact_match
  ∧ select_match "" = exact_match.
Proof.
  assert (H1 : "fuzzy"%string ≠ "partial"%string) by discriminate.
  assert (H2 : ""%string ≠ "partial"%string) by discriminate.
  split; [exact H1|]. split.
  - exact (proj1 (C10_other_match_fn_is_exact "fuzzy" H1)).
  - exact (proj1 (C10_other_match_fn_is_exact "" H2)).
Defined.

(** ** The match predicates *)

(** C3, as the code has it.  When one of the two texts normalises to the
    empty string the partial predicate is false; the exact predicate is true
    exactly when the other text normalises to the empty string too. *)
Theorem C3_blank_texts (a b : string) :
  normalize_for_match a = ""%string ∨ normalize_for_match b = ""%string →
  partial_match a b = false
  ∧ (exact_match a b = true
     ↔ normalize_for_match a = ""%string ∧ normalize_for_match b = ""%string).
Proof.
  intros H. split.
  - unfold partial_match. destruct H as [-> | ->]; simpl; [done|].
    by rewrite orb_true_r.
  - rewrite exact_match_spec. destruct H as [Ha | Hb].
    + rewrite Ha. split; [intros <-; done|intros [_ ->]; done].
    + rewrite Hb. split; [intros ->; done|intros [-> _]; done].
Qed.

Lemma C3_blank_texts_witness :
  (normalize_for_match "" = ""%string ∨ normalize_for_match "fever" = ""%string)
  ∧ partial_match "" "fever" = false
  ∧ (exact_match "" "fever" = true
     ↔ normalize_for_match "" = ""%string
       ∧ normalize_for_match "fever" = ""%string).
Proof.
  assert (H : normalize_for_match "" = ""%string
              ∨ normalize_for_match "fever" = ""%string).
  { left. reflexivity. }
  split; [exact H|]. exact (C3_blank_texts "" "fever" H).
Defined.

(** C3 as stated fails: two blank texts match under the exact predicate. *)
Lemma C3_counterexample :
  ¬ (normalize_for_match "" = ""%string ∨ normalize_for_match " " = ""%string →
     exact_match "" " " = false ∧ partial_match "" " " = false).
Proof.
  intros H. destruct H as [H _]; [left; reflexivity|].
  vm_compute in H. discriminate H.
Qed.

(** C6. The partial predicate holds exactly when both normalised texts are
    non-empty and one of them occurs in the other; so the predicted text
    "cefazolin" matches the gold text "Cefazolin 250mg IV" of the same class
    and counts one true positive. *)
Theorem C6_partial_match_containment :
  (∀ a b : string,
     partial_match a b = true ↔
       normalize_for_match a ≠ ""%string ∧ normalize_for_match b ≠ ""%string ∧
       (substring_of (normalize_for_match a) (normalize_for_match b)
        ∨ substring_of (normalize_for_match b) (normalize_for_match a)))
  ∧ partial_match "cefazolin" "Cefazolin 250mg IV" = true
  ∧ ∃ m, compute_metrics [mk_record "medication" "cefazolin"]
                         [mk_record "medication" "Cefazolin 250mg IV"]
                         "partial" = Ok m
         ∧ tp m = 1.
Proof.
  split; [exact partial_match_spec|]. split; [reflexivity|].
  metrics_returned. vm_compute. reflexivity.
Qed.

Lemma C6_partial_match_containment_witness :
  partial_match "iv" "Cefazolin 250mg IV" = true.
Proof.
  apply (proj1 C6_partial_match_containment). split_and!.
  - vm_compute. discriminate.
  - vm_compute. discriminate.
  - left. exists "cefazolin 250mg "%string, ""%string. reflexivity.
Defined.

(** C7, for a sequence that has records.  Scoring a non-empty sequence
    against itself under the exact predicate gives precision, recall and F1
    equal to 1 (in particular when its texts are non-empty and pairwise
    different within each class). *)
Theorem C7_exact_self_score (X : list record) :
  X ≠ [] → texts_nonempty X → distinct_within_class X →
  ∃ m, compute_metrics X X "exact" = Ok m
       ∧ (precision m == 1)%Q ∧ (recall m == 1)%Q ∧ (f1 m == 1)%Q.
Proof.
  intros Hne _ _.
  metrics_returned.
  rewrite (match_loop_self (select_match "exact") X X eq_refl).
  2:{ intros r _. apply exact_match_spec. reflexivity. }
  assert (Hlen : length X ≠ 0) by (by destruct X).
  pose proof (guarded_ratio_one _ Hlen) as H1.
  split_and!; [done|done|]. by apply guarded_f1_one.
Qed.

Lemma C7_exact_self_score_witness :
  three_records ≠ [] ∧ texts_nonempty three_records
  ∧ distinct_within_class three_records
  ∧ ∃ m, compute_metrics three_records three_records "exact" = Ok m
         ∧ (precision m == 1)%Q ∧ (recall m == 1)%Q ∧ (f1 m == 1)%Q.
Proof.
  assert (H1 : three_records ≠ []) by discriminate.
  assert (H2 : texts_nonempty three_records).
  { apply (bool_decide_unpack _). vm_compute. reflexivity. }
  assert (H3 : distinct_within_class three_records).
  { apply (bool_decide_unpack _). vm_compute. reflexivity. }
  split_and!; [exact H1|exact H2|exact H3|].
  exact (C7_exact_self_score three_records H1 H2 H3).
Defined.

(** C7 as stated fails on the empty sequence, whose ratios are 0. *)
Lemma C7_counterexample :
  texts_nonempty [] ∧ distinct_within_class []
  ∧ ∃ m, compute_metrics [] [] "exact" = Ok m
         ∧ ¬ (precision m == 1)%Q ∧ ¬ (recall m == 1)%Q ∧ ¬ (f1 m == 1)%Q.
Proof.
  split; [constructor|]. split; [constructor|].
  eexists. split; [reflexivity|]. cbn. split_and!; discriminate.
Qed.

(** ** The loaders and the aggregate *)

Lemma extractions_returns (fields : gmap string (list record)) :
  (if dict_contains fields "extractions"
   then dict_getitem fields "extractions" else Ok [])
  = Ok (default [] (fields !! "extractions")).
Proof.
  unfold dict_contains, dict_getitem.
  by destruct (fields !! "extractions") as [items|].
Qed.

Lemma load_gold_returns (data : parsed) :
  load_gold data = Ok (extractions_of data).
Proof. destruct data; simpl; [done|apply extractions_returns|done]. Qed.

(** C9. [load_gold] returns: the list itself for a parsed list, the value
    under ["extractions"] for a mapping that has this key, and the empty list
    for every other parsed value. *)
Theorem C9_load_gold_shapes (data : parsed) :
  (∀ items, data = DataList items → load_gold data = Ok items)
  ∧ (∀ fields items, data = DataDict fields →
       fields !! "extractions"%string = Some items → load_gold data = Ok items)
  ∧ ((∀ items, data ≠ DataList items) →
     (∀ fields, data = DataDict fields → fields !! "extractions"%string = None) →
     load_gold data = Ok []).
Proof.
  rewrite load_gold_returns. split_and!.
  - by intros items ->.
  - intros fields items -> H. simpl. by rewrite H.
  - intros Hlist Hdict. destruct data as [items|fields|]; simpl.
    + by destruct (Hlist items).
    + by rewrite (Hdict fields eq_refl).
    + done.
Qed.

Lemma C9_load_gold_shapes_witness :
  load_gold (DataList three_records) = Ok three_records
  ∧ load_gold (DataDict {[ "extractions"%string := three_records ]})
    = Ok three_records
  ∧ load_gold (DataDict {[ "records"%string := three_records ]}) = Ok []
  ∧ load_gold DataOther = Ok [].
Proof.
  split_and!.
  - exact (proj1 (C9_load_gold_shapes _) _ eq_refl).
  - apply (proj1 (proj2 (C9_load_gold_shapes _))
             {[ "extractions"%string := three_records ]} three_records).
    + reflexivity.
    + vm_compute. reflexivity.
  - apply (proj2 (proj2 (C9_load_gold_shapes _))).
    + discriminate.
    + intros fields [= <-]. reflexivity.
  - apply (proj2 (proj2 (C9_load_gold_shapes _))); discriminate.
Defined.

Lemma run_eval_body_returns (files : gmap string parsed) (st : eval_state)
    (stem : string) :
  ∃ st', run_eval_body files st stem = Ok st'
    ∧ all_pred st' = all_pred st ++ from_option fst [] (document_pair files stem)
    ∧ all_gold st' = all_gold st ++ from_option snd [] (document_pair files stem).
Proof.
  unfold run_eval_body, document_pair.
  destruct (files !! (stem +:+ ".json")) as [g|].
  2:{ exists st. by rewrite !app_nil_r. }
  rewrite load_gold_returns. cbn [mbind result_bind].
  destruct (files !! (stem +:+ "_pred.json")) as [p|].
  2:{ exists st. by rewrite !app_nil_r. }
  assert (Hp : match p with
               | DataList items => Ok items
               | DataDict fields =>
                   if dict_contains fields "extractions"
                   then dict_getitem fields "extractions" else Ok []
               | DataOther => Ok []
               end = Ok (extractions_of p)).
  { destruct p; simpl; [done|apply extractions_returns|done]. }
  rewrite Hp. cbn [mbind result_bind].
  rewrite compute_metrics_returns. cbn [mbind result_bind].
  eexists. split; [reflexivity|]. done.
Qed.

Lemma for_each_run_eval_body (files : gmap string parsed) (stems : list string)
    (st : eval_state) :
  ∃ st', for_each (run_eval_body files) stems st = Ok st'
    ∧ all_pred st' = all_pred st ++ concat (fst <$> omap (document_pair files) stems)
    ∧ all_gold st' = all_gold st ++ concat (snd <$> omap (document_pair files) stems).
Proof.
  revert st. induction stems as [|stem stems IH]; intros st.
  - exists st. by rewrite !app_nil_r.
  - destruct (run_eval_body_returns files st stem) as (st1 & Hrun & Hp & Hg).
    destruct (IH st1) as (st2 & Hrest & Hp2 & Hg2).
    exists st2. cbn [for_each]. rewrite Hrun. cbn [mbind result_bind].
    split; [done|]. rewrite Hp2, Hg2, Hp, Hg. cbn [omap list_omap].
    destruct (document_pair files stem) as [[p g]|]; simpl;
      by rewrite <- ?app_assoc, ?app_nil_r.
Qed.

(** C4, as the code has it.  [run_eval] returns a report.  When both pools
    (the predicted sequences, and the gold sequences, of the documents that
    have both files, concatenated in document order) are non-empty, its
    aggregate is the result of one [compute_metrics] call on the two pools
    under the partial predicate; when a pool is empty the aggregate is the
    empty dict. *)
Theorem C4_aggregate_over_pools (dir : samples) :
  ∃ rep, run_eval dir = Ok rep
    ∧ (pooled_pred dir ≠ [] → pooled_gold dir ≠ [] →
       ∃ m, compute_metrics (pooled_pred dir) (pooled_gold dir) "partial" = Ok m
            ∧ aggregate rep = Some m)
    ∧ (pooled_pred dir = [] ∨ pooled_gold dir = [] → aggregate rep = None).
Proof.
  unfold run_eval, pooled_pred, pooled_gold, document_pairs.
  destruct (for_each_run_eval_body (json_files dir) (txt_stems dir)
              (EvalState [] [] [])) as (st & -> & Hp & Hg).
  cbn [mbind result_bind]. simpl in Hp, Hg. rewrite <- Hp, <- Hg.
  destruct (all_pred st) as [|p ps] eqn:Ep; cbn [nonempty andb].
  { eexists. split; [reflexivity|]. cbn [aggregate]. split; [done|auto]. }
  destruct (all_gold st) as [|g gs] eqn:Eg; cbn [nonempty andb].
  { eexists. split; [reflexivity|]. cbn [aggregate]. split; [done|auto]. }
  rewrite compute_metrics_returns. cbn [mbind result_bind].
  eexists. split; [reflexivity|]. cbn [aggregate]. split.
  - intros _ _. eexists. split; reflexivity.
  - intros [?|?]; done.
Qed.

Lemma C4_aggregate_over_pools_witness :
  pooled_pred two_notes ≠ [] ∧ pooled_gold two_notes ≠ []
  ∧ ∃ rep, run_eval two_notes = Ok rep
      ∧ ∃ m, compute_metrics (pooled_pred two_notes) (pooled_gold two_notes)
                             "partial" = Ok m
             ∧ aggregate rep = Some m.
Proof.
  assert (H1 : pooled_pred two_notes ≠ []) by (vm_compute; discriminate).
  assert (H2 : pooled_gold two_notes ≠ []) by (vm_compute; discriminate).
  split; [exact H1|]. split; [exact H2|].
  destruct (C4_aggregate_over_pools two_notes) as (rep & Hrep & Hagg & _).
  exists rep. split; [exact Hrep|]. exact (Hagg H1 H2).
Defined.

(** C4 as stated fails: the one document of [one_note] has a gold and an
    (empty) predicted sequence, a [compute_metrics] call on the pools returns
    a record of zeros, and the aggregate of the report is the empty dict. *)
Lemma C4_counterexample :
  document_pairs one_note = [([], [mk_record "symptom_sign" "fever"])]
  ∧ ∃ rep m, run_eval one_note = Ok rep
      ∧ compute_metrics (pooled_pred one_note) (pooled_gold one_note) "partial"
        = Ok m
      ∧ aggregate rep = None
      ∧ aggregate rep ≠ Some m.
Proof.
  split; [vm_compute; reflexivity|].
  eexists. eexists. split; [vm_compute; reflexivity|].
  split; [vm_compute; reflexivity|]. split; [reflexivity|discriminate].
Qed.

(** * Further properties of the code *)

(** ** The normaliser *)

Lemma isspace_lower_char (c : ascii) :
  PyStr.isspace (PyStr.lower_char c) = PyStr.isspace c.
Proof. destruct c as [[] [] [] [] [] [] [] []]; reflexivity. Qed.

Lemma lower_char_idem (c : ascii) :
  PyStr.lower_char (PyStr.lower_char c) = PyStr.lower_char c.
Proof. destruct c as [[] [] [] [] [] [] [] []]; reflexivity. Qed.

Lemma split_cons (c : ascii) (t : string) :
  PyStr.split (String c t)
  = if PyStr.isspace c then PyStr.split t
    else if head_space t then String c EmptyString :: PyStr.split t
    else match PyStr.split t with
         | w :: ws => String c w :: ws
         | [] => [String c EmptyString]
         end.
Proof.
  cbn [PyStr.split]. destruct (PyStr.isspace c); [done|].
  destruct t as [|c' t']; [done|]. cbn [head_space].
  by destruct (PyStr.isspace c').
Qed.

Lemma split_nil_iff (s : string) :
  PyStr.split s = [] ↔ all_chars PyStr.isspace s = true.
Proof.
  induction s as [|c t IH]; [done|].
  rewrite split_cons. cbn [all_chars].
  destruct (PyStr.isspace c); simpl; [done|].
  split; [|done]. destruct (head_space t); [done|].
  by destruct (PyStr.split t).
Qed.

Lemma head_space_split (t : string) :
  head_space t = false → PyStr.split t ≠ [].
Proof.
  destruct t as [|c t]; [done|]. cbn [head_space]. intros Hc.
  rewrite split_nil_iff. cbn [all_chars]. by rewrite Hc.
Qed.

Lemma split_lstrip (s : string) : PyStr.split (PyStr.lstrip s) = PyStr.split s.
Proof.
  induction s as [|c t IH]; [done|].
  cbn [PyStr.lstrip]. rewrite (split_cons c t).
  destruct (PyStr.isspace c) eqn:Hc; [done|].
  by rewrite split_cons, Hc.
Qed.

Lemma head_space_rstrip (s : string) :
  head_space (PyStr.rstrip s) = head_space s.
Proof.
  destruct s as [|c t]; [done|]. cbn [PyStr.rstrip head_space].
  destruct (PyStr.rstrip t); [|done].
  by destruct (PyStr.isspace c) eqn:Hc.
Qed.

Lemma rstrip_cons_nonspace (c : ascii) (t : string) :
  PyStr.isspace c = false →
  PyStr.rstrip (String c t) = String c (PyStr.rstrip t).
Proof.
  intros Hc. cbn [PyStr.rstrip]. rewrite Hc. by destruct (PyStr.rstrip t).
Qed.

Lemma split_rstrip (s : string) : PyStr.split (PyStr.rstrip s) = PyStr.split s.
Proof.
  induction s as [|c t IH]; [done|].
  destruct (PyStr.isspace c) eqn:Hc.
  - rewrite (split_cons c t), Hc. cbn [PyStr.rstrip]. rewrite Hc.
    destruct (PyStr.rstrip t) as [|c' t'] eqn:Hr; [by rewrite <- IH|].
    by rewrite split_cons, Hc, <- IH.
  - rewrite rstrip_cons_nonspace by done.
    by rewrite !split_cons, Hc, head_space_rstrip, IH.
Qed.

Lemma split_strip (s : string) : PyStr.split (PyStr.strip s) = PyStr.split s.
Proof. unfold PyStr.strip. by rewrite split_rstrip, split_lstrip. Qed.


Lemma split_words (s : string) : Forall (λ w, is_word w = true) (PyStr.split s).
Proof.
  induction s as [|c t IH]; [constructor|].
  rewrite split_cons. destruct (PyStr.isspace c) eqn:Hc; [done|].
  assert (Hone : is_word (String c EmptyString) = true).
  { unfold is_word. cbn. by rewrite Hc. }
  destruct (head_space t); [by constructor|].
  destruct (PyStr.split t) as [|w ws]; [by constructor|].
  inversion IH as [|? ? Hw Hws]; subst. constructor; [|done].
  unfold is_word in *. cbn. rewrite Hc. cbn.
  by apply andb_true_iff in Hw as [_ ->].
Qed.

Lemma split_word (w : string) : is_word w = true → PyStr.split w = [w].
Proof.
  unfold is_word. induction w as [|c t IH]; [done|].
  cbn [PyStr.truthy all_chars andb]. intros [Hc Ht]%andb_true_iff.
  apply negb_true_iff in Hc. rewrite split_cons, Hc.
  destruct t as [|c' t']; [done|].
  cbn [all_chars] in Ht. pose proof Ht as Ht'.
  apply andb_true_iff in Ht' as [Hc'%negb_true_iff _].
  cbn [head_space]. rewrite Hc'. by rewrite IH.
Qed.

Lemma append_cons (c : ascii) (a b : string) :
  String c a +:+ b = String c (a +:+ b).
Proof. reflexivity. Qed.

Lemma split_word_space (w r : string) :
  is_word w = true →
  PyStr.split (w +:+ String " " r) = w :: PyStr.split r.
Proof.
  unfold is_word. induction w as [|c t IH]; [done|].
  cbn [PyStr.truthy all_chars andb]. intros [Hc Ht]%andb_true_iff.
  apply negb_true_iff in Hc. rewrite append_cons.
  rewrite split_cons, Hc. destruct t as [|c' t'].
  - change (EmptyString +:+ String " " r) with (String " " r).
    cbn [head_space]. change (PyStr.isspace " ") with true.
    cbn iota. by rewrite (split_cons " " r).
  - cbn [all_chars] in Ht. pose proof Ht as Ht'.
    apply andb_true_iff in Ht' as [Hc'%negb_true_iff _].
    rewrite append_cons. cbn [head_space]. rewrite Hc'.
    rewrite <- append_cons. by rewrite IH.
Qed.

Lemma split_join (ws : list string) :
  Forall (λ w, is_word w = true) ws →
  PyStr.split (PyStr.join " " ws) = ws.
Proof.
  induction 1 as [|w ws Hw Hws IH]; [done|].
  destruct ws as [|w' ws']; [by apply split_word|].
  change (PyStr.join " " (w :: w' :: ws'))
    with (w +:+ String " " (PyStr.join " " (w' :: ws'))).
  by rewrite split_word_space, IH.
Qed.

Lemma join_nil_iff (ws : list string) :
  Forall (λ w, is_word w = true) ws →
  PyStr.join " " ws = EmptyString ↔ ws = [].
Proof.
  intros Hws. split; [|by intros ->].
  intros H. rewrite <- (split_join ws Hws), H. done.
Qed.

Lemma all_chars_lower (P : ascii → bool) (s : string) :
  (∀ c, P (PyStr.lower_char c) = P c) →
  all_chars P (PyStr.lower s) = all_chars P s.
Proof.
  intros HP. induction s as [|c t IH]; [done|].
  cbn [PyStr.lower all_chars]. by rewrite HP, IH.
Qed.

Lemma split_lower (s : string) :
  PyStr.split (PyStr.lower s) = PyStr.lower <$> PyStr.split s.
Proof.
  induction s as [|c t IH]; [done|].
  cbn [PyStr.lower]. rewrite !split_cons, isspace_lower_char, IH.
  destruct (PyStr.isspace c); [done|].
  assert (Hh : head_space (PyStr.lower t) = head_space t).
  { destruct t; [done|]. cbn. apply isspace_lower_char. }
  rewrite Hh. destruct (head_space t); [done|].
  by destruct (PyStr.split t).
Qed.

Lemma lower_idem (s : string) : PyStr.lower (PyStr.lower s) = PyStr.lower s.
Proof.
  induction s as [|c t IH]; [done|].
  cbn [PyStr.lower]. by rewrite lower_char_idem, IH.
Qed.

Lemma lower_join (ws : list string) :
  PyStr.lower (PyStr.join " " ws) = PyStr.join " " (PyStr.lower <$> ws).
Proof.
  assert (Happ : ∀ a b, PyStr.lower (a +:+ b) = PyStr.lower a +:+ PyStr.lower b).
  { intros a b. induction a as [|c a IH]; [done|].
    rewrite append_cons. cbn [PyStr.lower]. by rewrite IH. }
  induction ws as [|w ws IH]; [done|].
  destruct ws as [|w' ws']; [done|].
  change (PyStr.join " " (w :: w' :: ws'))
    with (w +:+ String " " (PyStr.join " " (w' :: ws'))).
  rewrite Happ. cbn [PyStr.lower]. rewrite IH. done.
Qed.

(** The normalised text is the lower-cased words joined by one space. *)
Lemma normalize_words (s : string) :
  normalize_for_match s = PyStr.join " " (PyStr.lower <$> PyStr.split s).
Proof.
  unfold normalize_for_match. by rewrite split_strip, split_lower.
Qed.

Lemma lower_words (s : string) :
  Forall (λ w, is_word w = true) (PyStr.lower <$> PyStr.split s).
Proof. rewrite <- split_lower. apply split_words. Qed.

Lemma split_normalize (s : string) :
  PyStr.split (normalize_for_match s) = PyStr.lower <$> PyStr.split s.
Proof. rewrite normalize_words. apply split_join, lower_words. Qed.

Lemma normalize_idem (s : string) :
  normalize_for_match (normalize_for_match s) = normalize_for_match s.
Proof.
  rewrite (normalize_words (normalize_for_match s)), split_normalize.
  rewrite <- list_fmap_compose.
  rewrite (normalize_words s). f_equal. apply list_fmap_ext.
  intros i w _. apply lower_idem.
Qed.


Lemma append_empty_r (s : string) : s +:+ EmptyString = s.
Proof. induction s as [|c s IH]; [done|]. by rewrite append_cons, IH. Qed.

Lemma contains_refl (s : string) : PyStr.contains s s = true.
Proof.
  apply contains_spec. exists EmptyString, EmptyString.
  by rewrite append_empty_r.
Qed.

Lemma partial_match_comm (a b : string) : partial_match a b = partial_match b a.
Proof.
  unfold partial_match.
  destruct (PyStr.truthy (normalize_for_match a)),
           (PyStr.truthy (normalize_for_match b)); simpl; try done.
  apply orb_comm.
Qed.

(** X1. Normalising twice is normalising once, so both match predicates
    give the same answer on texts and on their normalised forms. *)
Theorem X1_normalize_idempotent (a b : string) :
  normalize_for_match (normalize_for_match a) = normalize_for_match a
  ∧ exact_match (normalize_for_match a) (normalize_for_match b) = exact_match a b
  ∧ partial_match (normalize_for_match a) (normalize_for_match b)
    = partial_match a b.
Proof.
  split; [apply normalize_idem|].
  unfold exact_match, partial_match. by rewrite !normalize_idem.
Qed.

(** X2. The normalised text consists of the words of the input (its maximal
    runs of non-whitespace characters), lower-cased, with exactly one space
    between two words and nothing before the first or after the last;
    splitting it gives these words back. *)
Theorem X2_normalize_canonical_form (s : string) :
  let ws := PyStr.lower <$> PyStr.split s in
  normalize_for_match s = PyStr.join " " ws
  ∧ Forall (λ w, is_word w = true) ws
  ∧ Forall (λ w, PyStr.lower w = w) ws
  ∧ PyStr.split (normalize_for_match s) = ws.
Proof.
  intros ws. split_and!.
  - apply normalize_words.
  - apply lower_words.
  - apply Forall_fmap, Forall_true. intros w. apply lower_idem.
  - apply split_normalize.
Qed.

(** X3. A text normalises to the empty string exactly when it consists of
    whitespace only (the empty text included). *)
Theorem X3_normalize_empty_iff_blank (s : string) :
  normalize_for_match s = EmptyString ↔ all_chars PyStr.isspace s = true.
Proof.
  rewrite normalize_words, (join_nil_iff _ (lower_words s)).
  rewrite <- split_nil_iff. destruct (PyStr.split s); simpl; split; congruence.
Qed.

(** X4. The exact predicate holds exactly when the two texts have the same
    sequence of lower-cased words: case and the amount and kind of whitespace
    between, before and after the words play no role, everything else does. *)
Theorem X4_exact_match_same_words (a b : string) :
  exact_match a b = true
  ↔ PyStr.lower <$> PyStr.split a = PyStr.lower <$> PyStr.split b.
Proof.
  rewrite exact_match_spec. split.
  - intros H. by rewrite <- !split_normalize, H.
  - intros H. by rewrite !normalize_words, H.
Qed.

(** X5. The partial predicate is symmetric; a text matches itself under it
    exactly when it is not blank; and on a text that is not blank it holds
    whenever the exact predicate does. *)
Theorem X5_partial_match_relation (a b : string) :
  partial_match a b = partial_match b a
  ∧ (partial_match a a = true ↔ normalize_for_match a ≠ EmptyString)
  ∧ (normalize_for_match a ≠ EmptyString → exact_match a b = true →
     partial_match a b = true).
Proof.
  split; [apply partial_match_comm|]. split.
  - unfold partial_match. rewrite <- truthy_true.
    destruct (PyStr.truthy (normalize_for_match a)); simpl; [|done].
    by rewrite contains_refl.
  - intros Ha Hb%exact_match_spec. unfold partial_match. rewrite <- Hb.
    apply truthy_true in Ha. rewrite Ha. simpl. by rewrite contains_refl.
Qed.

Lemma X5_partial_match_relation_witness :
  normalize_for_match "Fever " ≠ EmptyString
  ∧ exact_match "Fever " "  fever" = true
  ∧ partial_match "Fever " "  fever" = true.
Proof.
  assert (H1 : normalize_for_match "Fever " ≠ EmptyString)
    by (vm_compute; discriminate).
  assert (H2 : exact_match "Fever " "  fever" = true) by reflexivity.
  split; [exact H1|]. split; [exact H2|].
  exact (proj2 (proj2 (X5_partial_match_relation "Fever " "  fever")) H1 H2).
Defined.


(** ** More on the matching loop *)

Section LoopFacts.
Variable match_ : string → string → bool.

Lemma scan_gold_same_fields (p_class p_text : string) (l l' : list record)
    (k : nat) (st : loop_state) :
  Forall2 same_scoring_fields l l' →
  scan_gold match_ p_class p_text (enumerate_from k l) st
  = scan_gold match_ p_class p_text (enumerate_from k l') st.
Proof.
  intros H. revert k. induction H as [|g g' l l' [Hc Ht] _ IH]; intros k; [done|].
  cbn [enumerate_from scan_gold]. unfold class_of, text_of in Hc, Ht.
  by rewrite Hc, Ht, !IH.
Qed.

Lemma fold_match_one_same_fields (ps ps' gold gold' : list record)
    (st : loop_state) :
  Forall2 same_scoring_fields ps ps' →
  Forall2 same_scoring_fields gold gold' →
  fold_left (match_one match_ gold) ps st
  = fold_left (match_one match_ gold') ps' st.
Proof.
  intros Hp Hg. revert st.
  induction Hp as [|p p' ps ps' [Hc Ht] _ IH]; intros st; [done|].
  cbn [fold_left]. rewrite IH. f_equal.
  unfold match_one, enumerate. unfold class_of, text_of in Hc, Ht.
  rewrite Hc, Ht. by apply scan_gold_same_fields.
Qed.

Variable gold : list record.

(** The loop only ever adds: the count and the consumed set grow, the count
    by at most one per predicted record. *)
Lemma fold_match_one_grows (ps : list record) (st : loop_state) :
  let st' := fold_left (match_one match_ gold) ps st in
  st_tp st ≤ st_tp st' ≤ st_tp st + length ps
  ∧ st_matched_gold st ⊆ st_matched_gold st'.
Proof.
  revert st. induction ps as [|p ps IH]; intros st; cbn [fold_left length].
  - split; [lia|done].
  - destruct (match_one_cases match_ gold st p) as [->|(i & _ & _ & ->)].
    + destruct (IH st) as [? ?]. split; [lia|done].
    + destruct (IH (LoopState (st_tp st + 1) ({[ i ]} ∪ st_matched_gold st)))
        as [Htp Hsub]. cbn [st_tp st_matched_gold] in Htp, Hsub.
      split; [lia|set_solver].
Qed.

(** A round that leaves the count alone found no eligible gold index. *)
Lemma match_one_same_tp (st : loop_state) (p : record) :
  st_tp (match_one match_ gold st p) = st_tp st →
  match_one match_ gold st p = st
  ∧ ∀ i, ¬ eligible match_ gold (st_matched_gold st) p i.
Proof.
  intros Htp.
  destruct (match_one_step match_ gold st p) as [st i Hi Hmin|st Hno].
  - cbn [st_tp] in Htp. lia.
  - done.
Qed.

Lemma match_one_no_eligible (st : loop_state) (p : record) :
  (∀ i, ¬ eligible match_ gold (st_matched_gold st) p i) →
  match_one match_ gold st p = st.
Proof.
  intros Hno.
  pose proof (match_one_step match_ gold st p) as Hstep.
  eapply greedy_step_functional; [exact Hstep|]. by apply greedy_miss.
Qed.

Lemma eligible_compatible (M : gset nat) (p : record) (i : nat) :
  eligible match_ gold M p i
  ↔ (i ∉ M) ∧ (∃ g, gold !! i = Some g ∧ compatible match_ p g).
Proof. reflexivity. Qed.

(** The count stays put over a whole run exactly when no predicted record
    of the run finds an eligible gold index. *)
Lemma fold_match_one_same_tp (ps : list record) (st : loop_state) :
  st_tp (fold_left (match_one match_ gold) ps st) = st_tp st
  ↔ ∀ p i, p ∈ ps → ¬ eligible match_ gold (st_matched_gold st) p i.
Proof.
  revert st. induction ps as [|p ps IH]; intros st; cbn [fold_left].
  - split; [|done]. intros _ p i Hp. by apply elem_of_nil in Hp.
  - split.
    + intros Htp.
      pose proof (fold_match_one_grows ps (match_one match_ gold st p)) as [Hg _].
      destruct (match_one_cases match_ gold st p) as [Heq|(i & _ & _ & Heq)].
      * rewrite Heq in Htp. destruct (match_one_same_tp st p) as [_ Hno];
          [by rewrite Heq|].
        intros q j [->|Hq]%elem_of_cons; [apply Hno|].
        by apply (proj1 (IH st) Htp).
      * rewrite Heq in Hg. cbn [st_tp] in Hg. rewrite Heq in Htp. lia.
    + intros Hno. rewrite match_one_no_eligible.
      * apply IH. intros q j Hq. apply Hno. by right.
      * intros i. apply Hno. by left.
Qed.

(** Every consumed gold index was taken by a predicted record of the run
    that is compatible with the gold record at this index. *)
Lemma fold_match_one_sound (ps : list record) (st : loop_state) (i : nat) :
  i ∈ st_matched_gold (fold_left (match_one match_ gold) ps st) →
  i ∈ st_matched_gold st
  ∨ ∃ p g, p ∈ ps ∧ gold !! i = Some g ∧ compatible match_ p g.
Proof.
  revert st. induction ps as [|p ps IH]; intros st; cbn [fold_left]; [by left|].
  intros [Hi|(q & g & Hq & Hg & Hc)]%IH.
  - destruct (match_one_step match_ gold st p) as [st j [_ (g & Hg & Hc)] _|st _].
    + cbn [st_matched_gold] in Hi.
      apply elem_of_union in Hi as [->%elem_of_singleton|Hi]; [|by left].
      right. exists p, g. split_and!; [by left|done|done].
    + by left.
  - right. exists q, g. split_and!; [by right|done|done].
Qed.

End LoopFacts.


(** ** Gold records added at the end *)

Section MoreGold.
Variable match_ : string → string → bool.
Variables gold extra : list record.

Lemma eligible_more_gold (M M' : gset nat) (p : record) (i : nat) :
  i < length gold → (i ∈ M' ↔ i ∈ M) →
  eligible match_ (gold ++ extra) M' p i ↔ eligible match_ gold M p i.
Proof.
  intros Hi HM. unfold eligible. rewrite lookup_app_l by done.
  by rewrite HM.
Qed.

Lemma gold_sim_below (st st' : loop_state) (i : nat) :
  gold_sim gold extra st st' → i < length gold →
  i ∈ st_matched_gold st' ↔ i ∈ st_matched_gold st.
Proof.
  intros (Hsub & Hnew & _) Hi. split; [|by apply Hsub].
  intros Hin. destruct (decide (i ∈ st_matched_gold st)) as [|Hout]; [done|].
  specialize (Hnew i Hin Hout). lia.
Qed.

Lemma eligible_lt (gs : list record) (M : gset nat) (p : record) (i : nat) :
  eligible match_ gs M p i → i < length gs.
Proof. intros [_ (g & Hg & _)]. by eapply lookup_lt_Some. Qed.

Lemma gold_sim_step (p : record) (st st' st1 st1' : loop_state) :
  gold_sim gold extra st st' →
  greedy_step match_ gold p st st1 →
  greedy_step match_ (gold ++ extra) p st' st1' →
  gold_sim gold extra st1 st1'.
Proof.
  intros Hsim H1 H2.
  pose proof Hsim as (Hsub & Hnew & Htp).
  assert (Hup : ∀ j, eligible match_ gold (st_matched_gold st) p j →
                     eligible match_ (gold ++ extra) (st_matched_gold st') p j).
  { intros j Hj. pose proof (eligible_lt _ _ _ _ Hj) as Hlt.
    apply (eligible_more_gold (st_matched_gold st) (st_matched_gold st') p j);
      [done| |done].
    by apply gold_sim_below. }
  assert (Hdown : ∀ j, j < length gold →
                    eligible match_ (gold ++ extra) (st_matched_gold st') p j →
                    eligible match_ gold (st_matched_gold st) p j).
  { intros j Hlt Hj.
    apply (eligible_more_gold (st_matched_gold st) (st_matched_gold st') p j);
      [done| |done].
    by apply gold_sim_below. }
  destruct H1 as [st i Hi Hmin|st Hno]; destruct H2 as [st' i' Hi' Hmin'|st' Hno'].
  - (* both runs take an index: the same one *)
    pose proof (eligible_lt _ _ _ _ Hi) as Hlt.
    assert (i' = i) as ->.
    { destruct (Nat.lt_total i' i) as [Hl|[->|Hl]]; [|done|].
      - exfalso. apply (Hmin i' Hl). apply Hdown; [lia|done].
      - destruct (Hmin' i Hl). by apply Hup. }
    destruct Hi as [Hfree _]. destruct Hi' as [Hfree' _].
    split_and!; cbn [st_tp st_matched_gold].
    + set_solver.
    + intros j Hj Hout. apply Hnew; set_solver.
    + replace (({[i]} ∪ st_matched_gold st') ∖ ({[i]} ∪ st_matched_gold st))
        with (st_matched_gold st' ∖ st_matched_gold st) by set_solver.
      lia.
  - (* the short run takes an index the long run leaves: impossible *)
    exfalso. apply (Hno' i). by apply Hup.
  - (* only the long run takes an index: one of [extra] *)
    assert (Hge : length gold ≤ i').
    { destruct (decide (length gold ≤ i')) as [|Hlt]; [done|].
      exfalso. apply (Hno i'). apply Hdown; [lia|done]. }
    pose proof (eligible_lt _ _ _ _ Hi') as Hlt. rewrite length_app in Hlt.
    destruct Hi' as [Hfree' _].
    split_and!; cbn [st_tp st_matched_gold].
    + set_solver.
    + intros j [->%elem_of_singleton|Hj]%elem_of_union Hout; [lia|by apply Hnew].
    + replace (({[i']} ∪ st_matched_gold st') ∖ st_matched_gold st)
        with ({[i']} ∪ (st_matched_gold st' ∖ st_matched_gold st)) by set_solver.
      rewrite size_union by set_solver. rewrite size_singleton. lia.
  - done.
Qed.

Lemma gold_sim_fold (ps : list record) (st st' : loop_state) :
  gold_sim gold extra st st' →
  gold_sim gold extra (fold_left (match_one match_ gold) ps st)
           (fold_left (match_one match_ (gold ++ extra)) ps st').
Proof.
  revert st st'. induction ps as [|p ps IH]; intros st st' Hsim; [done|].
  cbn [fold_left]. apply IH.
  eapply gold_sim_step; [exact Hsim|apply match_one_step..].
Qed.

Lemma gold_sim_size (st st' : loop_state) :
  gold_sim gold extra st st' →
  st_tp st ≤ st_tp st' ≤ st_tp st + length extra.
Proof.
  intros (Hsub & Hnew & Htp). split; [lia|]. rewrite Htp.
  apply Nat.add_le_mono_l.
  rewrite <- (size_set_seq (C:=gset nat) (length gold) (length extra)).
  apply subseteq_size. intros i [Hi Hout]%elem_of_difference.
  apply elem_of_set_seq. by apply Hnew.
Qed.

End MoreGold.


(** ** Further properties of [compute_metrics] *)

Lemma guarded_ratio_mono_num (a b n : nat) :
  a ≤ b →
  ((if n =? 0 then 0 else of_int a / of_int n)
   <= (if n =? 0 then 0 else of_int b / of_int n))%Q.
Proof.
  intros Hab. destruct (Nat.eqb_spec n 0) as [|Hn]; [apply Qle_refl|].
  pose proof (of_int_pos n Hn) as Hpos.
  apply Qle_shift_div_l; [done|].
  unfold Qdiv. rewrite <- Qmult_assoc, (Qmult_comm (/ of_int n)).
  rewrite Qmult_inv_r by (by apply of_int_nonzero).
  rewrite Qmult_1_r. by apply of_int_le.
Qed.

(** X6. [compute_metrics] reads nothing of a record but its class and its
    text: replacing records by records with the same two fields (whatever
    their other keys) leaves the whole result unchanged. *)
Theorem X6_only_class_and_text (predicted predicted' gold gold' : list record)
    (match_fn : string) :
  Forall2 same_scoring_fields predicted predicted' →
  Forall2 same_scoring_fields gold gold' →
  compute_metrics predicted gold match_fn
  = compute_metrics predicted' gold' match_fn.
Proof.
  intros Hp Hg. unfold compute_metrics, match_loop.
  rewrite (fold_match_one_same_fields _ _ _ _ _ _ Hp Hg).
  by rewrite (Forall2_length _ _ _ Hp), (Forall2_length _ _ _ Hg).
Qed.

Lemma X6_only_class_and_text_witness :
  compute_metrics [mk_record "medication" "Cefazolin"]
                  [<["snippet" := "given Cefazolin"]> (mk_record "medication" "cefazolin")]
                  "partial"
  = compute_metrics [<["start" := "12"]> (mk_record "medication" "Cefazolin")]
                    [mk_record "medication" "cefazolin"] "partial".
Proof.
  apply X6_only_class_and_text.
  - constructor; [|constructor]. split; vm_compute; reflexivity.
  - constructor; [|constructor]. split; vm_compute; reflexivity.
Defined.

(** X7. Predicted records appended to the sequence never lower the
    true-positive count and raise it by at most one each, so the recall never
    drops. *)
Theorem X7_more_predictions (predicted more gold : list record)
    (match_fn : string) :
  ∃ m m', compute_metrics predicted gold match_fn = Ok m
    ∧ compute_metrics (predicted ++ more) gold match_fn = Ok m'
    ∧ tp m ≤ tp m' ≤ tp m + length more
    ∧ (recall m <= recall m')%Q.
Proof.
  eexists. eexists. split; [apply compute_metrics_returns|].
  split; [apply compute_metrics_returns|]. cbn [tp recall].
  unfold match_loop. rewrite fold_left_app.
  pose proof (fold_match_one_grows (select_match match_fn) gold more
                (fold_left (match_one (select_match match_fn) gold) predicted
                           (LoopState 0 ∅))) as [Htp _].
  split; [exact Htp|]. apply guarded_ratio_mono_num. lia.
Qed.

(** X8. The true-positive count is zero exactly when no predicted record is
    compatible with any gold record (same class string and matching texts). *)
Theorem X8_no_true_positive (predicted gold : list record) (match_fn : string) :
  ∃ m, compute_metrics predicted gold match_fn = Ok m
    ∧ (tp m = 0 ↔ ∀ p g, p ∈ predicted → g ∈ gold →
                         ¬ compatible (select_match match_fn) p g).
Proof.
  metrics_returned. unfold match_loop.
  rewrite (fold_match_one_same_tp (select_match match_fn) gold predicted
             (LoopState 0 ∅)). cbn [st_matched_gold]. split.
  - intros Hno p g Hp [i Hi]%list_elem_of_lookup Hc.
    apply (Hno p i Hp). split; [set_solver|]. by exists g.
  - intros Hno p i Hp [_ (g & Hg & Hc)].
    apply (Hno p g Hp); [|done]. apply list_elem_of_lookup. by exists i.
Qed.

(** X9. Every gold index the loop has consumed holds a gold record that is
    compatible with one of the predicted records: the count never includes a
    pair of different classes or of texts that do not match. *)
Theorem X9_consumed_are_compatible (predicted gold : list record)
    (match_fn : string) (i : nat) :
  i ∈ st_matched_gold (match_loop (select_match match_fn) predicted gold) →
  ∃ p g, p ∈ predicted ∧ gold !! i = Some g
         ∧ compatible (select_match match_fn) p g.
Proof.
  intros Hi. unfold match_loop in Hi.
  apply fold_match_one_sound in Hi as [Hi|Hi]; [set_solver|done].
Qed.

Lemma X9_consumed_are_compatible_witness :
  ∃ p g, p ∈ three_records
         ∧ [mk_record "dosage" "250mg oral"] !! 0 = Some g
         ∧ compatible (select_match "partial") p g.
Proof.
  apply (X9_consumed_are_compatible three_records
           [mk_record "dosage" "250mg oral"] "partial" 0).
  vm_compute. reflexivity.
Defined.

(** X10. Without a true positive the three ratios are exactly [0.0], also
    when neither list is empty: precision and recall are [0 / n], and the
    guard of F1 sees [0.0 + 0.0].  This holds in float arithmetic, for
    records with any field values. *)
Theorem X10_no_true_positive_zero_ratios (A : py_values) (laws : float_laws A)
    (predicted gold : list (record_any A)) (match_fn : string)
    (m : metrics_any A) :
  compute_metrics_any A predicted gold match_fn = Ok m →
  any_tp A m = 0 →
  any_precision A m = float_zero A
  ∧ any_recall A m = float_zero A
  ∧ any_f1 A m = float_zero A.
Proof.
  intros Hm Htp.
  destruct (match_loop_any A (select_match_any A match_fn) predicted gold)
    as [st|e] eqn:Hloop.
  - rewrite (compute_metrics_any_after_loop A laws _ _ _ _ Hloop) in Hm.
    cbn zeta in Hm. injection Hm as <-. cbn in *. rewrite Htp.
    assert (Hz : ∀ n, (if n =? 0 then float_zero A else int_truediv A 0 n)
                      = float_zero A).
    { intros n. destruct (Nat.eqb_spec n 0); [done|].
      by apply (int_truediv_zero A laws). }
    rewrite !Hz. by rewrite (zero_plus_zero A laws).
  - unfold compute_metrics_any in Hm. rewrite Hloop in Hm. done.
Qed.

Lemma X10_no_true_positive_zero_ratios_witness :
  ∃ m, compute_metrics_any exact_values
         [as_any exact_values (mk_record "medication" "Cefazolin")]
         [as_any exact_values (mk_record "dosage" "250mg")] "partial" = Ok m
       ∧ any_precision exact_values m = 0%Q
       ∧ any_recall exact_values m = 0%Q
       ∧ any_f1 exact_values m = 0%Q.
Proof.
  eexists. split; [vm_compute; reflexivity|].
  apply (X10_no_true_positive_zero_ratios exact_values exact_values_laws
           [as_any exact_values (mk_record "medication" "Cefazolin")]
           [as_any exact_values (mk_record "dosage" "250mg")] "partial").
  - vm_compute. reflexivity.
  - reflexivity.
Defined.

(** X11. Gold records appended to the sequence never lower the true-positive
    count and raise it by at most one each, so the precision never drops. *)
Theorem X11_more_gold (predicted gold more : list record) (match_fn : string) :
  ∃ m m', compute_metrics predicted gold match_fn = Ok m
    ∧ compute_metrics predicted (gold ++ more) match_fn = Ok m'
    ∧ tp m ≤ tp m' ≤ tp m + length more
    ∧ (precision m <= precision m')%Q.
Proof.
  eexists. eexists. split; [apply compute_metrics_returns|].
  split; [apply compute_metrics_returns|]. cbn [tp precision].
  assert (Hsim : gold_sim gold more
            (match_loop (select_match match_fn) predicted gold)
            (match_loop (select_match match_fn) predicted (gold ++ more))).
  { unfold match_loop. apply gold_sim_fold.
    split_and!; cbn [st_tp st_matched_gold]; [done|set_solver|].
    by rewrite difference_diag_L, size_empty. }
  pose proof (gold_sim_size _ _ _ _ Hsim) as Htp.
  split; [exact Htp|]. apply guarded_ratio_mono_num. lia.
Qed.


Lemma X8_no_true_positive_witness :
  ∃ m, compute_metrics [mk_record "medication" "Cefazolin"]
                       [mk_record "dosage" "Cefazolin"] "partial" = Ok m
       ∧ tp m = 0.
Proof.
  destruct (X8_no_true_positive [mk_record "medication" "Cefazolin"]
              [mk_record "dosage" "Cefazolin"] "partial") as (m & Hm & Hiff).
  exists m. split; [exact Hm|]. apply Hiff.
  intros p g ->%list_elem_of_singleton ->%list_elem_of_singleton [Hc _].
  vm_compute in Hc. discriminate Hc.
Defined.

(** ** Further properties of [run_eval] *)

Lemma run_eval_body_skips (files : gmap string parsed) (st : eval_state)
    (stem : string) :
  document_pair files stem = None → run_eval_body files st stem = Ok st.
Proof.
  unfold run_eval_body, document_pair.
  destruct (files !! (stem +:+ ".json")) as [g|]; [|done].
  rewrite load_gold_returns. cbn [mbind result_bind].
  by destruct (files !! (stem +:+ "_pred.json")).
Qed.

Lemma run_eval_body_scores (files : gmap string parsed) (st : eval_state)
    (stem : string) (p g : list record) :
  document_pair files stem = Some (p, g) →
  ∃ fr, scores_document fr (stem, (p, g))
    ∧ run_eval_body files st stem
      = Ok (EvalState (results st ++ [fr]) (all_pred st ++ p) (all_gold st ++ g)).
Proof.
  unfold run_eval_body, document_pair.
  destruct (files !! (stem +:+ ".json")) as [gd|]; [|done].
  rewrite load_gold_returns. cbn [mbind result_bind].
  destruct (files !! (stem +:+ "_pred.json")) as [pd|]; [|done].
  intros [= <- <-].
  assert (Hp : match pd with
               | DataList items => Ok items
               | DataDict fields =>
                   if dict_contains fields "extractions"
                   then dict_getitem fields "extractions" else Ok []
               | DataOther => Ok []
               end = Ok (extractions_of pd)).
  { destruct pd; simpl; [done|apply extractions_returns|done]. }
  rewrite Hp. cbn [mbind result_bind].
  rewrite compute_metrics_returns. cbn [mbind result_bind].
  eexists. split; [|reflexivity].
  split; [reflexivity|]. cbn [metrics fst snd]. apply compute_metrics_returns.
Qed.

Lemma for_each_run_eval_scores (files : gmap string parsed) (stems : list string)
    (st : eval_state) :
  ∃ frs,
    Forall2 scores_document frs
      (omap (λ stem, (λ pg, (stem, pg)) <$> document_pair files stem) stems)
    ∧ for_each (run_eval_body files) stems st
      = Ok (EvalState
              (results st ++ frs)
              (all_pred st ++ concat (fst <$> omap (document_pair files) stems))
              (all_gold st ++ concat (snd <$> omap (document_pair files) stems))).
Proof.
  revert st. induction stems as [|stem stems IH]; intros st.
  - exists []. split; [constructor|]. cbn. rewrite !app_nil_r. by destruct st.
  - cbn [for_each omap list_omap].
    destruct (document_pair files stem) as [[p g]|] eqn:Hd.
    + destruct (run_eval_body_scores files st stem p g Hd) as (fr & Hfr & ->).
      cbn [mbind result_bind].
      destruct (IH (EvalState (results st ++ [fr]) (all_pred st ++ p)
                              (all_gold st ++ g))) as (frs & Hfrs & ->).
      exists (fr :: frs). split; [by constructor|].
      cbn. by rewrite <- !app_assoc.
    + rewrite (run_eval_body_skips files st stem Hd). cbn [mbind result_bind].
      destruct (IH st) as (frs & Hfrs & ->). by exists frs.
Qed.

Lemma scores_document_counts (fr : file_result)
    (doc : string * (list record * list record)) :
  scores_document fr doc →
  num_pred (metrics fr) = length doc.2.1 ∧ num_gold (metrics fr) = length doc.2.2.
Proof.
  intros [_ H]. rewrite compute_metrics_returns in H.
  injection H as H. by rewrite <- H.
Qed.


Lemma run_eval_returns (dir : samples) :
  ∃ frs agg,
    Forall2 scores_document frs (scored_documents dir)
    ∧ run_eval dir = Ok (Report frs agg)
    ∧ agg = (if nonempty (pooled_pred dir) && nonempty (pooled_gold dir)
             then match compute_metrics (pooled_pred dir) (pooled_gold dir)
                                        "partial" with
                  | Ok m => Some m
                  | Raise _ => None
                  end
             else None).
Proof.
  unfold run_eval, scored_documents, pooled_pred, pooled_gold, document_pairs.
  destruct (for_each_run_eval_scores (json_files dir) (txt_stems dir)
              (EvalState [] [] [])) as (frs & Hfrs & ->).
  cbn [mbind result_bind results all_pred all_gold app].
  set (P := concat (fst <$> omap (document_pair (json_files dir)) (txt_stems dir))).
  set (G := concat (snd <$> omap (document_pair (json_files dir)) (txt_stems dir))).
  exists frs,
    (if nonempty P && nonempty G
     then match compute_metrics P G "partial" with
          | Ok m => Some m
          | Raise _ => None
          end
     else None).
  split; [exact Hfrs|]. split; [|done].
  destruct (nonempty P && nonempty G); [|done].
  by rewrite compute_metrics_returns.
Qed.

Lemma scored_documents_pairs (dir : samples) :
  snd <$> scored_documents dir = document_pairs dir.
Proof.
  unfold scored_documents, document_pairs.
  induction (txt_stems dir) as [|stem stems IH]; [done|].
  cbn [omap list_omap].
  destruct (document_pair (json_files dir) stem); cbn; by rewrite ?IH.
Qed.

Lemma scores_document_sums (frs : list file_result)
    (docs : list (string * (list record * list record))) :
  Forall2 scores_document frs docs →
  sum_list ((λ fr, num_pred (metrics fr)) <$> frs)
  = length (concat (fst <$> (snd <$> docs)))
  ∧ sum_list ((λ fr, num_gold (metrics fr)) <$> frs)
    = length (concat (snd <$> (snd <$> docs))).
Proof.
  induction 1 as [|fr doc frs docs Hs _ [IHp IHg]]; [done|].
  destruct (scores_document_counts fr doc Hs) as [Hp Hg].
  cbn. rewrite !length_app, IHp, IHg, Hp, Hg. done.
Qed.

(** *** The run over the files of a directory *)

Lemma rsplit_dot_txt (stem : string) :
  rsplit_dot (stem +:+ ".txt") = Some (stem, ".txt"%string).
Proof.
  induction stem as [|c stem IH]; [done|].
  rewrite append_cons. cbn [rsplit_dot]. by rewrite IH.
Qed.

(** The companions of a text file [stem.txt] with a non-empty stem. *)
Lemma txt_companions (stem : string) :
  stem ≠ EmptyString →
  with_suffix (stem +:+ ".txt") ".json" = stem +:+ ".json"
  ∧ path_stem (stem +:+ ".txt") = stem.
Proof.
  intros Hne. unfold with_suffix, path_suffix, path_stem.
  rewrite rsplit_dot_txt. by destruct stem.
Qed.

(** A file named [.txt] has no suffix: it is its own stem. *)
Lemma bare_txt_companions :
  with_suffix ".txt" ".json" = ".txt.json"%string
  ∧ path_stem ".txt" = ".txt"%string.
Proof. done. Qed.

Lemma pred_list_returns (pd : parsed) :
  match pd with
  | DataList items => Ok items
  | DataDict fields =>
      if dict_contains fields "extractions"
      then dict_getitem fields "extractions" else Ok []
  | DataOther => Ok []
  end = Ok (extractions_of pd).
Proof. destruct pd; simpl; [done|apply extractions_returns|done]. Qed.

Lemma load_gold_file_valid (data : parsed) :
  load_gold_file (ValidJson data) = Ok (extractions_of data).
Proof. apply load_gold_returns. Qed.

Lemma run_eval_files_body_passes (files : gmap string json_file)
    (st : eval_state) (name : string) :
  passed_over files name = true → run_eval_files_body files st name = Ok st.
Proof.
  unfold passed_over, run_eval_files_body.
  destruct (files !! with_suffix name ".json") as [[gd|]|]; [|done|done].
  intros Hp%bool_decide_eq_true.
  rewrite load_gold_file_valid. cbn [mbind result_bind].
  by rewrite Hp.
Qed.

Lemma run_eval_files_body_broken_gold (files : gmap string json_file)
    (st : eval_state) (name : string) :
  files !! with_suffix name ".json" = Some InvalidJson →
  run_eval_files_body files st name = Raise JSONDecodeError.
Proof. unfold run_eval_files_body. by intros ->. Qed.

(** One round that returns: either nothing changed and the file has no
    pair, or one entry was appended for its pair. *)
Lemma run_eval_files_body_returns (files : gmap string json_file)
    (st st' : eval_state) (name : string) :
  run_eval_files_body files st name = Ok st' →
  (file_pair files name = None ∧ st' = st)
  ∨ (∃ p g fr, file_pair files name = Some (p, g)
       ∧ scores_file fr (name, (p, g))
       ∧ st' = EvalState (results st ++ [fr]) (all_pred st ++ p)
                         (all_gold st ++ g)).
Proof.
  unfold run_eval_files_body, file_pair.
  destruct (files !! with_suffix name ".json") as [[gd|]|];
    [|done|intros [= <-]; by left].
  rewrite load_gold_file_valid. cbn [mbind result_bind].
  destruct (files !! (path_stem name +:+ "_pred.json")) as [[pd|]|];
    [|done|intros [= <-]; by left].
  cbn [json_load]. cbn [mbind result_bind].
  rewrite pred_list_returns. cbn [mbind result_bind].
  rewrite compute_metrics_returns. cbn [mbind result_bind].
  intros [= <-]. right. do 3 eexists. split; [reflexivity|].
  split; [|reflexivity].
  split; [reflexivity|]. cbn [metrics fst snd]. apply compute_metrics_returns.
Qed.

Lemma for_each_run_eval_files (files : gmap string json_file)
    (names : list string) (st st' : eval_state) :
  for_each (run_eval_files_body files) names st = Ok st' →
  ∃ frs,
    Forall2 scores_file frs
      (omap (λ name, (λ pg, (name, pg)) <$> file_pair files name) names)
    ∧ results st' = results st ++ frs.
Proof.
  revert st. induction names as [|name names IH]; intros st.
  - intros [= <-]. exists []. split; [constructor|]. by rewrite app_nil_r.
  - cbn [for_each omap list_omap].
    destruct (run_eval_files_body files st name) as [st1|e] eqn:Hbody; [|done].
    cbn [mbind result_bind]. intros Hrest.
    destruct (IH _ Hrest) as (frs & Hfrs & Hres).
    destruct (run_eval_files_body_returns _ _ _ _ Hbody)
      as [[-> ->]|(p & g & fr & -> & Hfr & ->)].
    + by exists frs.
    + exists (fr :: frs). split; [by constructor|].
      rewrite Hres. cbn [results]. by rewrite <- app_assoc.
Qed.

Lemma for_each_run_eval_files_filter (files : gmap string json_file)
    (names : list string) (st : eval_state) :
  for_each (run_eval_files_body files) names st
  = for_each (run_eval_files_body files)
             (filter (λ name, passed_over files name = false) names) st.
Proof.
  revert st. induction names as [|name names IH]; intros st; [done|].
  rewrite filter_cons. case_decide as Hb.
  - cbn [for_each]. destruct (run_eval_files_body files st name); [|done].
    cbn [mbind result_bind]. apply IH.
  - cbn [for_each]. rewrite run_eval_files_body_passes.
    + cbn [mbind result_bind]. apply IH.
    + by destruct (passed_over files name).
Qed.

Lemma for_each_raises_at {S B : Type} (body : S → B → result S)
    (xs : list B) (x : B) (st : S) :
  x ∈ xs → (∀ st, ∃ e, body st x = Raise e) →
  ∃ e, for_each body xs st = Raise e.
Proof.
  intros Hx Hraise. revert st.
  induction xs as [|y xs IH]; intros st; [by apply elem_of_nil in Hx|].
  cbn [for_each]. destruct (body st y) as [st'|e] eqn:E.
  - cbn [mbind result_bind].
    apply elem_of_cons in Hx as [->|Hx]; [|by apply IH].
    destruct (Hraise st) as [e He]. congruence.
  - by exists e.
Qed.

(** On text files [stem.txt] with non-empty stems, and JSON files that all
    parse, the run is the one of [run_eval]. *)
Lemma run_eval_files_body_stem (files : gmap string parsed) (st : eval_state)
    (stem : string) :
  stem ≠ EmptyString →
  run_eval_files_body (ValidJson <$> files) st (stem +:+ ".txt")
  = run_eval_body files st stem.
Proof.
  intros Hne. unfold run_eval_files_body, run_eval_body.
  destruct (txt_companions stem Hne) as [-> ->].
  rewrite !lookup_fmap.
  destruct (files !! (stem +:+ ".json")) as [gd|]; [|done].
  cbn [fmap option_fmap option_map].
  rewrite load_gold_file_valid, load_gold_returns. cbn [mbind result_bind].
  by destruct (files !! (stem +:+ "_pred.json")).
Qed.

Lemma run_eval_files_stems (stems : list string) (files : gmap string parsed) :
  Forall (λ stem, stem ≠ EmptyString) stems →
  run_eval_files (Directory ((λ stem, stem +:+ ".txt") <$> stems)
                            (ValidJson <$> files))
  = run_eval (Samples stems files).
Proof.
  intros Hne. unfold run_eval_files, run_eval.
  cbn [txt_names dir_files txt_stems json_files].
  assert (H : ∀ st,
    for_each (run_eval_files_body (ValidJson <$> files))
             ((λ stem, stem +:+ ".txt") <$> stems) st
    = for_each (run_eval_body files) stems st); [|by rewrite H].
  induction Hne as [|stem stems Hstem _ IH]; intros st; [done|].
  cbn [fmap list_fmap for_each]. rewrite run_eval_files_body_stem by done.
  destruct (run_eval_body files st stem); [|done].
  cbn [mbind result_bind]. apply IH.
Qed.

(** X12. Whenever [run_eval] returns a report, its [per_file] list has one
    entry for each text file whose gold file and prediction file both exist
    and parse, in the order of the listing, and no other entry: the name of
    the text file as listed, and the metrics of its predicted against its
    gold records under the partial predicate.  The gold file of a text file
    is named by replacing its suffix and the prediction file by its stem, so
    a file named [.txt], which has no suffix, is scored against [.txt.json]
    and [.txt_pred.json] and reported as [.txt]. *)
Theorem X12_per_file_results (dir : directory) (rep : report) :
  run_eval_files dir = Ok rep →
  Forall2 scores_file (per_file rep) (scored_files dir).
Proof.
  unfold run_eval_files, scored_files.
  destruct (for_each (run_eval_files_body (dir_files dir)) (txt_names dir)
              (EvalState [] [] [])) as [st|e] eqn:Hloop; [|done].
  cbn [mbind result_bind].
  destruct (for_each_run_eval_files _ _ _ _ Hloop) as (frs & Hfrs & Hres).
  cbn [results app] in Hres.
  destruct (nonempty (all_pred st) && nonempty (all_gold st)).
  - rewrite compute_metrics_returns. cbn [mbind result_bind].
    intros [= <-]. cbn [per_file]. by rewrite Hres.
  - cbn [mbind result_bind]. intros [= <-]. cbn [per_file]. by rewrite Hres.
Qed.

Lemma X12_per_file_results_witness :
  ∃ rep, run_eval_files dotted_names = Ok rep
    ∧ file <$> per_file rep = [".txt"%string; "a.b.txt"%string]
    ∧ Forall2 scores_file (per_file rep)
        [(".txt"%string, ([mk_record "symptom_sign" "Fever"],
                          [mk_record "symptom_sign" "fever"]));
         ("a.b.txt"%string, ([mk_record "dosage" "250mg"], []))].
Proof.
  eexists. split; [vm_compute; reflexivity|]. split; [reflexivity|].
  apply (X12_per_file_results dotted_names). vm_compute. reflexivity.
Defined.

(** X13. A text file without a gold file, or with a gold file that parses
    and without a prediction file, has no effect at all: the outcome of
    [run_eval], a report or an exception, is the one for the listing without
    these text files.  The gold file is loaded before the prediction file is
    looked for: a text file whose gold file does not parse is not skipped, it
    makes every run over a listing that holds it end in an exception,
    whether or not it has a prediction file. *)
Theorem X13_incomplete_documents_skipped (dir : directory) :
  run_eval_files dir
  = run_eval_files
      (Directory (filter (λ name, passed_over (dir_files dir) name = false)
                         (txt_names dir))
                 (dir_files dir))
  ∧ (∀ name, name ∈ txt_names dir →
       dir_files dir !! with_suffix name ".json" = Some InvalidJson →
       ∃ e, run_eval_files dir = Raise e).
Proof.
  split.
  - unfold run_eval_files. cbn [txt_names dir_files].
    by rewrite <- for_each_run_eval_files_filter.
  - intros name Hin Hbad. unfold run_eval_files.
    destruct (for_each_raises_at (run_eval_files_body (dir_files dir))
                (txt_names dir) name (EvalState [] [] []) Hin) as [e ->].
    + intros st. exists JSONDecodeError.
      by apply run_eval_files_body_broken_gold.
    + by exists e.
Qed.

Lemma X13_incomplete_documents_skipped_witness :
  run_eval_files dotted_names
  = run_eval_files (Directory [".txt"%string; "a.b.txt"%string]
                              (dir_files dotted_names))
  ∧ run_eval_files broken_gold = Raise JSONDecodeError.
Proof.
  split.
  - exact (proj1 (X13_incomplete_documents_skipped dotted_names)).
  - destruct (proj2 (X13_incomplete_documents_skipped broken_gold)
                "note.txt"%string) as [e He].
    + apply list_elem_of_singleton. reflexivity.
    + reflexivity.
    + vm_compute. reflexivity.
Defined.

(** X14. In the report of [run_eval] the predicted counts of the per-file
    entries add up to the size of the predicted pool, and the gold counts to
    the size of the gold pool; an aggregate, when there is one, carries
    exactly these two sums, and there is none exactly when one of the sums
    is zero. *)
Theorem X14_aggregate_counts (dir : samples) :
  ∃ rep, run_eval dir = Ok rep
    ∧ let total_pred := sum_list ((λ fr, num_pred (metrics fr)) <$> per_file rep) in
      let total_gold := sum_list ((λ fr, num_gold (metrics fr)) <$> per_file rep) in
      total_pred = length (pooled_pred dir)
      ∧ total_gold = length (pooled_gold dir)
      ∧ (∀ m, aggregate rep = Some m →
              num_pred m = total_pred ∧ num_gold m = total_gold)
      ∧ (aggregate rep = None ↔ total_pred = 0 ∨ total_gold = 0).
Proof.
  destruct (run_eval_returns dir) as (frs & agg & Hfrs & Hrun & Hagg).
  exists (Report frs agg). split; [exact Hrun|]. cbn [per_file aggregate].
  destruct (scores_document_sums _ _ Hfrs) as [Hp Hg].
  rewrite scored_documents_pairs in Hp, Hg.
  fold (pooled_pred dir) in Hp. fold (pooled_gold dir) in Hg.
  rewrite Hp, Hg. split; [done|]. split; [done|].
  rewrite compute_metrics_returns in Hagg.
  destruct (pooled_pred dir) as [|p ps]; cbn [nonempty andb] in Hagg.
  { subst agg. split; [done|]. split; [by left|done]. }
  destruct (pooled_gold dir) as [|g gs]; cbn [nonempty andb] in Hagg.
  { subst agg. split; [done|]. split; [by right|done]. }
  subst agg. split.
  - intros m [= <-]. done.
  - split; [done|]. cbn [length]. lia.
Qed.


Lemma X14_aggregate_counts_witness :
  ∃ rep m, run_eval two_notes = Ok rep ∧ aggregate rep = Some m
           ∧ num_pred m = 3 ∧ num_gold m = 2.
Proof.
  destruct (X14_aggregate_counts two_notes)
    as (rep & Hrun & Hp & Hg & Hagg & _).
  vm_compute in Hrun. injection Hrun as <-.
  eexists. eexists. split; [vm_compute; reflexivity|].
  split; [reflexivity|]. exact (Hagg _ eq_refl).
Defined.

(** ** The few-shot examples *)

Lemma forallb_Forall {A : Type} (f : A → bool) (l : list A) :
  forallb f l = true → Forall (λ x, f x = true) l.
Proof.
  induction l as [|x l IH]; [constructor|].
  cbn [forallb]. intros [Hx Hl]%andb_true_iff. constructor; auto.
Qed.

Lemma has_extraction_spec (ex : ExampleData) (class v : string) :
  has_extraction ex class v = true →
  ∃ e, e ∈ ex_extractions ex ∧ extraction_class e = class
       ∧ extraction_text e = v.
Proof.
  unfold has_extraction. induction (ex_extractions ex) as [|e es IH]; [done|].
  cbn [existsb]. intros [[Hc Ht]%andb_true_iff|H]%orb_true_iff.
  - exists e. apply String.eqb_eq in Hc, Ht. split_and!; [by left|done|done].
  - destruct (IH H) as (e' & ? & ? & ?). exists e'. split_and!; [by right|done|done].
Qed.

(** X15. In each of the six few-shot examples of [get_clinical_examples]
    every extraction text occurs verbatim in the text of its example, and
    every extraction class is one of the entity types that [CLINICAL_PROMPT]
    lists (a line [- class: ...]). *)
Theorem X15_examples_verbatim_and_listed :
  length get_clinical_examples = 6
  ∧ Forall (λ ex,
       Forall (λ e,
          substring_of (extraction_text e) (ex_text ex)
          ∧ substring_of ("- " +:+ extraction_class e +:+ ":") CLINICAL_PROMPT)
         (ex_extractions ex))
      get_clinical_examples.
Proof.
  split; [reflexivity|].
  assert (H : forallb (λ ex, forallb (λ e, verbatim_in ex e && listed_in_prompt e)
                                (ex_extractions ex))
                get_clinical_examples = true) by (vm_compute; reflexivity).
  apply forallb_Forall in H. eapply Forall_impl; [exact H|].
  intros ex Hex. apply forallb_Forall in Hex. eapply Forall_impl; [exact Hex|].
  intros e [Hv Hl]%andb_true_iff. split; by apply contains_spec.
Qed.

(** X16. In the few-shot examples a [medication_group] attribute always names
    the text of a [medication] extraction of the same example, and a
    [lab_group] attribute the text of one of its [lab_test] extractions. *)
Theorem X16_examples_groups_linked :
  Forall (λ ex,
     Forall (λ e,
        (∀ v, str_attribute "medication_group" e = Some v →
              ∃ e', e' ∈ ex_extractions ex
                    ∧ extraction_class e' = "medication"%string
                    ∧ extraction_text e' = v)
        ∧ (∀ v, str_attribute "lab_group" e = Some v →
                ∃ e', e' ∈ ex_extractions ex
                      ∧ extraction_class e' = "lab_test"%string
                      ∧ extraction_text e' = v))
       (ex_extractions ex))
    get_clinical_examples.
Proof.
  assert (H : forallb (λ ex,
                 forallb (λ e, group_linked "medication_group" "medication" ex e
                               && group_linked "lab_group" "lab_test" ex e)
                         (ex_extractions ex))
                get_clinical_examples = true) by (vm_compute; reflexivity).
  apply forallb_Forall in H. eapply Forall_impl; [exact H|].
  intros ex Hex. apply forallb_Forall in Hex. eapply Forall_impl; [exact Hex|].
  intros e [Hm Hl]%andb_true_iff. unfold group_linked in Hm, Hl. split.
  - intros v Hv. rewrite Hv in Hm. by apply has_extraction_spec.
  - intros v Hv. rewrite Hv in Hl. by apply has_extraction_spec.
Qed.


Lemma X16_examples_groups_linked_witness :
  ∃ e', e' ∈ ex_extractions _example_discharge
        ∧ extraction_class e' = "medication"%string
        ∧ extraction_text e' = "Lisinopril"%string.
Proof.
  pose proof (proj1 (Forall_forall _ _) X16_examples_groups_linked
                _example_discharge) as Hex.
  assert (Hin : _example_discharge ∈ get_clinical_examples).
  { apply (list_elem_of_lookup_2 _ 1). reflexivity. }
  pose proof (proj1 (Forall_forall _ _) (Hex Hin)
                (example_extraction "dosage" "10 mg"
                   (Some {[ "medication_group"%string := AttrStr "Lisinopril" ]})))
    as He.
  assert (Hin' : example_extraction "dosage" "10 mg"
                   (Some {[ "medication_group"%string := AttrStr "Lisinopril" ]})
                 ∈ ex_extractions _example_discharge).
  { apply (list_elem_of_lookup_2 _ 9). reflexivity. }
  apply (proj1 (He Hin') "Lisinopril"%string). vm_compute. reflexivity.
Defined.

(** ** [extract]: the keyword arguments *)

Lemma lookup_set_if_truthy (key key' : string) (value : option string)
    (kwargs : gmap string pyval) :
  set_if_truthy key value kwargs !! key'
  = match value with
    | Some s => if PyStr.truthy s && bool_decide (key = key')
                then Some (PyStr s) else kwargs !! key'
    | None => kwargs !! key'
    end.
Proof.
  unfold set_if_truthy. destruct value as [s|]; [|done].
  destruct (PyStr.truthy s); [|done]. cbn [andb].
  rewrite lookup_insert. case_decide; case_bool_decide; done.
Qed.


Lemma lookup_set_if_truthy_eq (key : string) (value : option string)
    (kwargs : gmap string pyval) :
  kwargs !! key = None →
  set_if_truthy key value kwargs !! key = truthy_str value.
Proof.
  intros Hk. rewrite lookup_set_if_truthy. unfold truthy_str.
  destruct value as [s|]; [|done]. rewrite bool_decide_eq_true_2 by done.
  by destruct (PyStr.truthy s).
Qed.

Lemma lookup_set_if_truthy_ne (key key' : string) (value : option string)
    (kwargs : gmap string pyval) :
  key ≠ key' → set_if_truthy key value kwargs !! key' = kwargs !! key'.
Proof.
  intros Hk. rewrite lookup_set_if_truthy.
  destruct value as [s|]; [|done]. rewrite bool_decide_eq_false_2 by done.
  by rewrite andb_false_r.
Qed.

Ltac kwargs_lookup :=
  unfold extract_kwargs;
  repeat first
    [ rewrite lookup_set_if_truthy_ne by done
    | rewrite lookup_insert_ne by done
    | rewrite lookup_insert_eq
    | rewrite lookup_empty ].

Lemma kwargs_model_url (os : os_state) (a : extract_args) :
  extract_kwargs os a !! "model_url"
  = if use_ollama a then truthy_str (model_url a) else None.
Proof.
  unfold extract_kwargs. destruct (use_ollama a).
  - rewrite lookup_set_if_truthy_eq; [done|]. kwargs_lookup. done.
  - kwargs_lookup. done.
Qed.

Lemma kwargs_api_key (os : os_state) (a : extract_args) :
  extract_kwargs os a !! "api_key"
  = truthy_str (str_or (api_key a) (environ os !! "LANGEXTRACT_API_KEY")).
Proof.
  unfold extract_kwargs. destruct (use_ollama a).
  - kwargs_lookup. rewrite lookup_set_if_truthy_eq; [done|]. kwargs_lookup. done.
  - rewrite lookup_set_if_truthy_eq; [done|]. kwargs_lookup. done.
Qed.

Lemma kwargs_ollama_flag (os : os_state) (a : extract_args) (key : string) :
  key = "fence_output" ∨ key = "use_schema_constraints" →
  extract_kwargs os a !! key
  = if use_ollama a then Some (PyBool false) else None.
Proof.
  unfold extract_kwargs.
  intros [-> | ->]; destruct (use_ollama a); kwargs_lookup; done.
Qed.

Lemma kwargs_text (os : os_state) (a : extract_args) :
  extract_kwargs os a !! "text_or_documents"
  = Some (PyStr (default (text_or_path a)
                         (regular_files os !! text_or_path a))).
Proof.
  unfold extract_kwargs.
  destruct (use_ollama a); kwargs_lookup;
    by destruct (regular_files os !! text_or_path a).
Qed.

Lemma kwargs_other_key (os : os_state) (a : extract_args) (key : string) :
  key ∉ ["text_or_documents"; "prompt_description"; "examples"; "model_id";
         "extraction_passes"; "max_workers"; "max_char_buffer"; "api_key";
         "fence_output"; "use_schema_constraints"; "model_url"] →
  extract_kwargs os a !! key = None.
Proof.
  intros Hk. repeat (apply not_elem_of_cons in Hk as [? Hk]).
  unfold extract_kwargs. destruct (use_ollama a); kwargs_lookup; done.
Qed.


(** X17. [extract] never passes [temperature] or [max_tokens] on: the call of
    [lx.extract] is the same whatever their values.  [fence_output] and
    [use_schema_constraints] are passed, as [False], exactly when
    [use_ollama] is set, and [model_url] only then and only when it is a
    non-empty string: without [use_ollama] a given URL is dropped. *)
Theorem X17_extract_sampling_and_ollama (os : os_state) (a : extract_args) :
  (∀ t n (R : Type) (lx_extract : gmap string pyval → R),
     extract lx_extract os (with_sampling a t n) = extract lx_extract os a)
  ∧ extract_kwargs os a !! "temperature" = None
  ∧ extract_kwargs os a !! "max_tokens" = None
  ∧ (use_ollama a = false →
     extract_kwargs os a !! "fence_output" = None
     ∧ extract_kwargs os a !! "use_schema_constraints" = None
     ∧ extract_kwargs os a !! "model_url" = None)
  ∧ (use_ollama a = true →
     extract_kwargs os a !! "fence_output" = Some (PyBool false)
     ∧ extract_kwargs os a !! "use_schema_constraints" = Some (PyBool false)
     ∧ extract_kwargs os a !! "model_url" = truthy_str (model_url a)).
Proof.
  split_and!.
  - reflexivity.
  - apply kwargs_other_key. set_solver.
  - apply kwargs_other_key. set_solver.
  - intros H. rewrite kwargs_model_url, !kwargs_ollama_flag by auto.
    by rewrite H.
  - intros H. rewrite kwargs_model_url, !kwargs_ollama_flag by auto.
    by rewrite H.
Qed.

Lemma X17_extract_sampling_and_ollama_witness :
  use_ollama cloud_call = false
  ∧ extract_kwargs sample_os cloud_call !! "model_url" = None.
Proof.
  split; [reflexivity|].
  apply (proj1 (proj2 (proj2 (proj2 (X17_extract_sampling_and_ollama
                                        sample_os cloud_call))))).
  reflexivity.
Defined.

(** X18. The API key handed to [lx.extract] is the [api_key] argument when
    that is a non-empty string, and otherwise the value of the environment
    variable [LANGEXTRACT_API_KEY] when that is set and non-empty; in every
    other case no [api_key] is passed at all (never an empty one). *)
Theorem X18_extract_api_key (os : os_state) (a : extract_args) :
  (∀ s, api_key a = Some s → s ≠ ""%string →
        extract_kwargs os a !! "api_key" = Some (PyStr s))
  ∧ (api_key a = None ∨ api_key a = Some ""%string →
     extract_kwargs os a !! "api_key"
     = truthy_str (environ os !! "LANGEXTRACT_API_KEY"))
  ∧ extract_kwargs os a !! "api_key" ≠ Some (PyStr "")
  ∧ extract_kwargs os a !! "api_key" ≠ Some PyNone.
Proof.
  rewrite kwargs_api_key. unfold str_or, truthy_str. split_and!.
  - intros s -> Hs%truthy_true. by rewrite !Hs.
  - by intros [-> | ->].
  - destruct (api_key a) as [[|c s]|]; cbn;
      destruct (environ os !! "LANGEXTRACT_API_KEY") as [[|c' s']|]; cbn; done.
  - destruct (api_key a) as [[|c s]|]; cbn;
      destruct (environ os !! "LANGEXTRACT_API_KEY") as [[|c' s']|]; cbn; done.
Qed.

Lemma X18_extract_api_key_witness :
  (api_key cloud_call = None ∨ api_key cloud_call = Some ""%string)
  ∧ extract_kwargs sample_os cloud_call !! "api_key" = Some (PyStr "k-123").
Proof.
  assert (H : api_key cloud_call = None ∨ api_key cloud_call = Some ""%string)
    by (by right).
  split; [exact H|].
  rewrite (proj1 (proj2 (X18_extract_api_key sample_os cloud_call)) H).
  reflexivity.
Defined.

(** X19. The text handed to [lx.extract] is the content of the file when
    [text_or_path] names a regular file, and [text_or_path] itself in every
    other case (also when it is the path of a file that does not exist); the
    prompt and the examples are always [CLINICAL_PROMPT] and the six
    few-shot examples. *)
Theorem X19_extract_text_source (os : os_state) (a : extract_args) :
  (∀ content, regular_files os !! text_or_path a = Some content →
     extract_kwargs os a !! "text_or_documents" = Some (PyStr content))
  ∧ (regular_files os !! text_or_path a = None →
     extract_kwargs os a !! "text_or_documents" = Some (PyStr (text_or_path a)))
  ∧ extract_kwargs os a !! "prompt_description" = Some (PyStr CLINICAL_PROMPT)
  ∧ extract_kwargs os a !! "examples" = Some (PyExamples get_clinical_examples).
Proof.
  rewrite kwargs_text. split_and!.
  - by intros content ->.
  - by intros ->.
  - unfold extract_kwargs. destruct (use_ollama a); kwargs_lookup; done.
  - unfold extract_kwargs. destruct (use_ollama a); kwargs_lookup; done.
Qed.

Lemma X19_extract_text_source_witness :
  regular_files sample_os !! text_or_path cloud_call = None
  ∧ extract_kwargs sample_os cloud_call !! "text_or_documents"
    = Some (PyStr "missing.txt").
Proof.
  assert (H : regular_files sample_os !! text_or_path cloud_call = None)
    by reflexivity.
  split; [exact H|].
  exact (proj1 (proj2 (X19_extract_text_source sample_os cloud_call)) H).
Defined.

(** ** [extractions_to_serializable] *)

Lemma attributes_or_empty_default (a : option (gmap string attr_value)) :
  attributes_or_empty a = default ∅ a.
Proof.
  destruct a as [d|]; [|done]. cbn. by case_bool_decide.
Qed.

Ltac row_lookup :=
  repeat first
    [ rewrite lookup_insert_ne by done
    | rewrite lookup_insert_eq
    | rewrite lookup_empty ].

(** The row of one extraction of a document that has a text. *)
Lemma serialize_extraction_row (t : string) (e : Extraction) :
  ∃ row, serialize_extraction (Some t) e = Done row
    ∧ row !! "class" = Some (PyStr (extraction_class e))
    ∧ row !! "text" = Some (PyStr (extraction_text e))
    ∧ row !! "attributes" = Some (PyAttrs (default ∅ (attributes e)))
    ∧ row !! "start" = (λ ci, of_position (start_pos ci)) <$> char_interval e
    ∧ row !! "end" = (λ ci, of_position (end_pos ci)) <$> char_interval e
    ∧ row !! "snippet"
      = (λ ci, PyStr (getslice t (start_pos ci) (end_pos ci))) <$> char_interval e.
Proof.
  unfold serialize_extraction. rewrite attributes_or_empty_default.
  destruct (char_interval e) as [ci|]; eexists; (split; [reflexivity|]);
    cbn [fmap option_fmap option_map]; split_and!; row_lookup; done.
Qed.

Lemma serialize_all_rows (t : string) (es : list Extraction)
    (out : list (gmap string pyval)) :
  ∃ rows, serialize_all (Some t) es out = Done (out ++ rows)
    ∧ Forall2 (λ e row, serialize_extraction (Some t) e = Done row) es rows.
Proof.
  revert out. induction es as [|e es IH]; intros out.
  - exists []. by rewrite app_nil_r.
  - destruct (serialize_extraction_row t e) as (row & Hrow & _).
    destruct (IH (out ++ [row])) as (rows & Hrows & Hall).
    exists (row :: rows). cbn [serialize_all]. rewrite Hrow, Hrows.
    split; [by rewrite <- app_assoc|by constructor].
Qed.

(** Without a document text the loop gets through exactly the extractions
    that carry no interval. *)
Lemma serialize_all_no_text (es : list Extraction)
    (out : list (gmap string pyval)) :
  (∃ rows, serialize_all None es out = Done rows)
  ↔ Forall (λ e, char_interval e = None) es.
Proof.
  revert out. induction es as [|e es IH]; intros out.
  - split; [constructor|]. by exists out.
  - cbn [serialize_all]. unfold serialize_extraction.
    destruct (char_interval e) as [ci|] eqn:Hci.
    + split; [by intros [? ?]|]. intros H. inversion H; congruence.
    + rewrite IH. split; [by constructor|]. by inversion 1.
Qed.

(** ** Slices *)

Lemma substring_prefix (m : nat) (s : string) :
  m ≤ String.length s →
  ∃ after : string,
    s = String.substring 0 m s +:+ after
    ∧ String.length (String.substring 0 m s) = m.
Proof.
  revert s. induction m as [|m IH]; intros s Hle.
  - exists s. by destruct s.
  - destruct s as [|c s]; [cbn in Hle; lia|].
    destruct (IH s) as (after & Hs & Hl); [cbn in Hle; lia|].
    exists after. cbn [String.substring String.length].
    rewrite append_cons, <- Hs, Hl. done.
Qed.

Lemma substring_split (n m : nat) (s : string) :
  n + m ≤ String.length s →
  ∃ before after : string,
    s = before +:+ String.substring n m s +:+ after
    ∧ String.length before = n
    ∧ String.length (String.substring n m s) = m.
Proof.
  revert s. induction n as [|n IH]; intros s Hle.
  - destruct (substring_prefix m s) as (after & Hs & Hl); [lia|].
    by exists EmptyString, after.
  - destruct s as [|c s]; [cbn in Hle; lia|].
    destruct (IH s) as (before & after & Hs & Hb & Hl); [cbn in Hle; lia|].
    exists (String c before), after. cbn [String.substring String.length].
    rewrite append_cons, <- Hs, Hb. done.
Qed.

Lemma slice_bound_range (len dflt : Z) (i : option Z) :
  (0 ≤ len)%Z → (0 ≤ dflt ≤ len)%Z → (0 ≤ slice_bound len dflt i ≤ len)%Z.
Proof.
  intros Hlen Hd. unfold slice_bound. destruct i as [i|]; [|done].
  destruct (Z.ltb_spec i 0); lia.
Qed.

Lemma slice_bound_in_range (len dflt i : Z) :
  (0 ≤ i ≤ len)%Z → slice_bound len dflt (Some i) = i.
Proof.
  intros Hi. unfold slice_bound. destruct (Z.ltb_spec i 0); lia.
Qed.

Lemma getslice_split (s : string) (start stop : option Z) :
  ∃ before after : string,
    s = before +:+ getslice s start stop +:+ after
    ∧ Z.of_nat (String.length before)
      = slice_bound (Z.of_nat (String.length s)) 0 start
    ∧ Z.of_nat (String.length (getslice s start stop))
      = Z.max 0 (slice_bound (Z.of_nat (String.length s))
                             (Z.of_nat (String.length s)) stop
                 - slice_bound (Z.of_nat (String.length s)) 0 start).
Proof.
  unfold getslice.
  set (len := Z.of_nat (String.length s)).
  pose proof (slice_bound_range len 0 start) as Hlo.
  pose proof (slice_bound_range len len stop) as Hhi.
  set (lo := slice_bound len 0 start) in *.
  set (hi := slice_bound len len stop) in *.
  destruct (substring_split (Z.to_nat lo) (Z.to_nat (hi - lo)) s)
    as (before & after & Hs & Hb & Hl); [lia|].
  exists before, after. split_and!; [done|lia|lia].
Qed.


Lemma serializable_rows (es : list Extraction) (t : string) :
  ∃ rows,
    extractions_to_serializable (MkAnnotatedDocument (Some es) (Some t))
    = Done rows
    ∧ Forall2 (λ e row, serialize_extraction (Some t) e = Done row) es rows.
Proof.
  unfold extractions_to_serializable. cbn [extractions text].
  destruct (serialize_all_rows t es []) as (rows & Hrows & Hall).
  exists rows. by rewrite Hrows.
Qed.

Lemma serialize_extraction_inj (t : string) (e : Extraction)
    (row : gmap string pyval) :
  serialize_extraction (Some t) e = Done row →
  row !! "class" = Some (PyStr (extraction_class e))
  ∧ row !! "text" = Some (PyStr (extraction_text e))
  ∧ row !! "attributes" = Some (PyAttrs (default ∅ (attributes e)))
  ∧ row !! "start" = (λ ci, of_position (start_pos ci)) <$> char_interval e
  ∧ row !! "end" = (λ ci, of_position (end_pos ci)) <$> char_interval e
  ∧ row !! "snippet"
    = (λ ci, PyStr (getslice t (start_pos ci) (end_pos ci))) <$> char_interval e.
Proof.
  intros Hrow. destruct (serialize_extraction_row t e) as (row' & Hrow' & H).
  rewrite Hrow in Hrow'. by injection Hrow' as ->.
Qed.

(** X20. For a document with a text, [extractions_to_serializable] returns
    one row per extraction, in the same order; the row carries the class and
    the text of its extraction under ["class"] and ["text"], and under
    ["attributes"] always a dict: the attributes of the extraction, or the
    empty dict when it has none. *)
Theorem X20_one_row_per_extraction (es : list Extraction) (t : string) :
  ∃ rows,
    extractions_to_serializable (MkAnnotatedDocument (Some es) (Some t))
    = Done rows
    ∧ length rows = length es
    ∧ ∀ i e, es !! i = Some e →
        ∃ row, rows !! i = Some row
          ∧ row !! "class" = Some (PyStr (extraction_class e))
          ∧ row !! "text" = Some (PyStr (extraction_text e))
          ∧ row !! "attributes" = Some (PyAttrs (default ∅ (attributes e))).
Proof.
  destruct (serializable_rows es t) as (rows & Hrows & Hall).
  exists rows. split; [done|]. split; [symmetry; by eapply Forall2_length|].
  intros i e He.
  destruct (Forall2_lookup_l _ _ _ _ _ Hall He) as (row & Hrow & Hser).
  exists row. split; [done|].
  destruct (serialize_extraction_inj t e row Hser) as (? & ? & ? & _). done.
Qed.

(** X21. A row has the keys ["start"], ["end"] and ["snippet"] exactly when
    its extraction has a char interval (all three or none); they hold the two
    positions of the interval and the slice of the document text between
    them. *)
Theorem X21_span_keys (es : list Extraction) (t : string)
    (rows : list (gmap string pyval)) (i : nat) (e : Extraction)
    (row : gmap string pyval) :
  extractions_to_serializable (MkAnnotatedDocument (Some es) (Some t))
  = Done rows →
  es !! i = Some e → rows !! i = Some row →
  (∀ key, key ∈ ["start"; "end"; "snippet"]%string →
          is_Some (row !! key) ↔ is_Some (char_interval e))
  ∧ (∀ ci, char_interval e = Some ci →
       row !! "start" = Some (of_position (start_pos ci))
       ∧ row !! "end" = Some (of_position (end_pos ci))
       ∧ row !! "snippet"
         = Some (PyStr (getslice t (start_pos ci) (end_pos ci)))).
Proof.
  intros Hdone He Hrow.
  destruct (serializable_rows es t) as (rows' & Hrows & Hall).
  rewrite Hdone in Hrows. injection Hrows as <-.
  pose proof (Forall2_lookup_lr _ _ _ _ _ _ Hall He Hrow) as Hser.
  destruct (serialize_extraction_inj t e row Hser)
    as (_ & _ & _ & Hs & He' & Hsn).
  split.
  - intros key Hkey. rewrite !elem_of_cons, elem_of_nil in Hkey.
    destruct Hkey as [-> | [-> | [-> | []]]];
      rewrite ?Hs, ?He', ?Hsn; apply fmap_is_Some.
  - intros ci Hci. rewrite Hs, He', Hsn, Hci. done.
Qed.

(** X22. The snippet of a row is always a part of the document text.  When
    the interval lies within the text ([0 <= start <= end <= len(text)]) the
    snippet has [end - start] characters and starts at offset [start]. *)
Theorem X22_snippet_within_text (es : list Extraction) (t : string)
    (rows : list (gmap string pyval)) (i : nat) (e : Extraction)
    (row : gmap string pyval) (ci : CharInterval) :
  extractions_to_serializable (MkAnnotatedDocument (Some es) (Some t))
  = Done rows →
  es !! i = Some e → rows !! i = Some row → char_interval e = Some ci →
  ∃ snippet, row !! "snippet" = Some (PyStr snippet)
    ∧ substring_of snippet t
    ∧ ∀ s s', start_pos ci = Some s → end_pos ci = Some s' →
        (0 ≤ s ≤ s')%Z → (s' ≤ Z.of_nat (String.length t))%Z →
        ∃ before after : string,
          t = before +:+ snippet +:+ after
          ∧ Z.of_nat (String.length before) = s
          ∧ Z.of_nat (String.length snippet) = (s' - s)%Z.
Proof.
  intros Hdone He Hrow Hci.
  destruct (serializable_rows es t) as (rows' & Hrows & Hall).
  rewrite Hdone in Hrows. injection Hrows as <-.
  pose proof (Forall2_lookup_lr _ _ _ _ _ _ Hall He Hrow) as Hser.
  destruct (serialize_extraction_inj t e row Hser) as (_ & _ & _ & _ & _ & Hsn).
  rewrite Hci in Hsn. eexists. split; [exact Hsn|].
  destruct (getslice_split t (start_pos ci) (end_pos ci))
    as (before & after & Ht & Hb & Hl).
  split; [by exists before, after|].
  intros s s' Hs Hs' Hle Hlen. exists before, after.
  rewrite Hs in Hb, Hl. rewrite Hs' in Hl.
  rewrite slice_bound_in_range in Hb by lia.
  rewrite !slice_bound_in_range in Hl by lia.
  split_and!; [done|done|]. rewrite Hs, Hs'. lia.
Qed.

(** X23. [extractions_to_serializable] raises [TypeError] on a document whose
    extraction list is missing.  On a document whose text is missing it
    returns exactly when no extraction carries a char interval; otherwise it
    raises. *)
Theorem X23_missing_parts (es : list Extraction) (t : option string) :
  extractions_to_serializable (MkAnnotatedDocument None t) = TypeError
  ∧ ((∃ rows, extractions_to_serializable (MkAnnotatedDocument (Some es) None)
              = Done rows)
     ↔ Forall (λ e, char_interval e = None) es)
  ∧ (extractions_to_serializable (MkAnnotatedDocument (Some es) None) = TypeError
     ↔ Exists (λ e, char_interval e ≠ None) es).
Proof.
  split; [done|]. unfold extractions_to_serializable. cbn [extractions text].
  pose proof (serialize_all_no_text es []) as Hiff. split; [exact Hiff|].
  destruct (serialize_all None es []) as [rows|].
  - split; [done|]. intros (e & Hin & He)%Exists_exists. exfalso.
    assert (Hall : Forall (λ e, char_interval e = None) es).
    { apply Hiff. by exists rows. }
    apply He. exact (proj1 (Forall_forall _ _) Hall e Hin).
  - split; [|done]. intros _.
    assert (Hnot : ¬ Forall (λ e, char_interval e = None) es).
    { intros [rows Hrows]%Hiff. done. }
    apply not_Forall_Exists in Hnot; [|intros e; apply _].
    eapply Exists_impl; [exact Hnot|]. done.
Qed.

Lemma X20_one_row_per_extraction_witness :
  ∃ rows row, extractions_to_serializable sample_document = Done rows
    ∧ rows !! 1 = Some row
    ∧ row !! "class" = Some (PyStr "duration")
    ∧ row !! "attributes" = Some (PyAttrs ∅).
Proof.
  destruct (X20_one_row_per_extraction sample_extractions "Fever for 3 days.")
    as (rows & Hdone & _ & Hrow).
  destruct (Hrow 1 (MkExtraction "duration" "3 days" (Some ∅) None) eq_refl)
    as (row & Hr & Hc & _ & Ha).
  exists rows, row. split_and!; [exact Hdone|exact Hr|exact Hc|exact Ha].
Defined.

Lemma X21_span_keys_witness :
  ∃ rows row, extractions_to_serializable sample_document = Done rows
    ∧ rows !! 0 = Some row
    ∧ row !! "start" = Some (PyInt 0)
    ∧ row !! "end" = Some (PyInt 5)
    ∧ row !! "snippet" = Some (PyStr "Fever").
Proof.
  destruct (serializable_rows sample_extractions "Fever for 3 days.")
    as (rows & Hdone & Hall).
  destruct (Forall2_lookup_l _ _ _ 0 _ Hall eq_refl) as (row & Hr & _).
  exists rows, row. split; [exact Hdone|]. split; [exact Hr|].
  exact (proj2 (X21_span_keys sample_extractions "Fever for 3 days." rows 0 _
                  row Hdone eq_refl Hr) _ eq_refl).
Defined.

Lemma X22_snippet_within_text_witness :
  ∃ rows row snippet before after,
    extractions_to_serializable sample_document = Done rows
    ∧ rows !! 0 = Some row
    ∧ row !! "snippet" = Some (PyStr snippet)
    ∧ "Fever for 3 days."%string = before +:+ snippet +:+ after
    ∧ Z.of_nat (String.length before) = 0%Z
    ∧ Z.of_nat (String.length snippet) = (5 - 0)%Z.
Proof.
  destruct (serializable_rows sample_extractions "Fever for 3 days.")
    as (rows & Hdone & Hall).
  destruct (Forall2_lookup_l _ _ _ 0 _ Hall eq_refl) as (row & Hr & _).
  destruct (X22_snippet_within_text sample_extractions "Fever for 3 days."
              rows 0 _ row _ Hdone eq_refl Hr eq_refl)
    as (snippet & Hsn & _ & Hin).
  destruct (Hin 0%Z 5%Z eq_refl eq_refl) as (before & after & Ht & Hb & Hl);
    [lia|vm_compute; discriminate|].
  exists rows, row, snippet, before, after.
  split_and!; [exact Hdone|exact Hr|exact Hsn|exact Ht|exact Hb|exact Hl].
Defined.


(** ** The exact predicate: a count that does not depend on the order *)

Lemma free_keys_fresh (M : gset nat) (i k : nat) (l : list record) :
  i < k →
  free_keys ({[ i ]} ∪ M) (enumerate_from k l) = free_keys M (enumerate_from k l).
Proof.
  revert k. induction l as [|x l IH]; intros k Hlt; [done|].
  cbn [enumerate_from free_keys]. rewrite IH by lia.
  destruct (decide (k ∈ M)) as [Hin|Hout].
  - by rewrite !bool_decide_eq_true_2 by set_solver.
  - rewrite !bool_decide_eq_false_2; [done|done|].
    intros [?%elem_of_singleton|?]%elem_of_union; [lia|done].
Qed.

Lemma free_keys_all (k : nat) (l : list record) :
  free_keys ∅ (enumerate_from k l) = key_bag l.
Proof.
  unfold key_bag. revert k. induction l as [|x l IH]; intros k; [done|].
  cbn [enumerate_from free_keys]. rewrite bool_decide_eq_false_2 by set_solver.
  by rewrite IH, fmap_cons, list_to_set_disj_cons.
Qed.

(** One round of the inner loop under the exact predicate: it consumes an
    index whose key is the key of the predicted record, or there is no free
    gold record with this key. *)
Lemma scan_gold_exact (p : record) (l : list record) (k : nat)
    (st : loop_state) :
  let scan := scan_gold exact_match (class_of p) (text_of p)
                        (enumerate_from k l) st in
  (scan = st
   ∧ scoring_key p ∉ free_keys (st_matched_gold st) (enumerate_from k l))
  ∨ (∃ i, k ≤ i
       ∧ scan = LoopState (st_tp st + 1) ({[ i ]} ∪ st_matched_gold st)
       ∧ free_keys (st_matched_gold st) (enumerate_from k l)
         = {[+ scoring_key p +]}
           ⊎ free_keys ({[ i ]} ∪ st_matched_gold st) (enumerate_from k l)).
Proof.
  revert k. induction l as [|x l IH]; intros k scan; subst scan.
  - left. split; [done|]. cbn. multiset_solver.
  - cbn [enumerate_from scan_gold free_keys].
    destruct (decide (k ∈ st_matched_gold st)) as [Hin|Hout].
    + rewrite !bool_decide_eq_true_2 by done.
      destruct (IH (S k)) as [[-> Hno]|(i & Hi & -> & Hfree)]; [by left|].
      right. exists i. split_and!; [lia|done|].
      by rewrite bool_decide_eq_true_2 by set_solver.
    + rewrite !bool_decide_eq_false_2 by done.
      assert (Hkey : scoring_key p = scoring_key x
                     ↔ (class_of p =? dict_get x "class" "")%string = true
                       ∧ exact_match (text_of p) (dict_get x "text" "") = true).
      { unfold scoring_key. rewrite String.eqb_eq, exact_match_spec.
        fold (class_of x) (text_of x). split; [by intros [= -> ->]|].
        by intros [-> ->]. }
      destruct ((class_of p =? dict_get x "class" "")%string) eqn:Hc; cbn [negb].
      * destruct (exact_match (text_of p) (dict_get x "text" "")) eqn:Hm.
        -- right. exists k. split_and!; [lia|done|].
           rewrite bool_decide_eq_true_2 by set_solver.
           rewrite free_keys_fresh by lia.
           by rewrite (proj2 Hkey).
        -- assert (Hne : scoring_key p ≠ scoring_key x).
           { intros [_ ?]%Hkey. done. }
           destruct (IH (S k)) as [[-> Hno]|(i & Hi & -> & Hfree)].
           ++ left. split; [done|]. multiset_solver.
           ++ right. exists i. split_and!; [lia|done|].
              rewrite bool_decide_eq_false_2.
              2:{ intros [?%elem_of_singleton|?]%elem_of_union; [lia|done]. }
              rewrite Hfree. multiset_solver.
      * assert (Hne : scoring_key p ≠ scoring_key x).
        { intros [? _]%Hkey. done. }
        destruct (IH (S k)) as [[-> Hno]|(i & Hi & -> & Hfree)].
        -- left. split; [done|]. multiset_solver.
        -- right. exists i. split_and!; [lia|done|].
           rewrite bool_decide_eq_false_2.
           2:{ intros [?%elem_of_singleton|?]%elem_of_union; [lia|done]. }
           rewrite Hfree. multiset_solver.
Qed.

Lemma fold_match_one_exact (gold ps : list record) (st : loop_state) :
  st_tp (fold_left (match_one exact_match gold) ps st)
  = st_tp st
    + size (key_bag ps ∩ free_keys (st_matched_gold st) (enumerate gold)).
Proof.
  revert st. induction ps as [|p ps IH]; intros st; cbn [fold_left].
  - unfold key_bag. rewrite fmap_nil, list_to_set_disj_nil.
    replace (∅ ∩ free_keys (st_matched_gold st) (enumerate gold))
      with (∅ : gmultiset (string * string)) by multiset_solver.
    rewrite gmultiset_size_empty. lia.
  - rewrite IH. unfold match_one, enumerate.
    fold (class_of p) (text_of p).
    assert (Hbag : key_bag (p :: ps) = {[+ scoring_key p +]} ⊎ key_bag ps).
    { unfold key_bag. by rewrite fmap_cons, list_to_set_disj_cons. }
    rewrite Hbag.
    destruct (scan_gold_exact p gold 0 st) as [[-> Hno]|(i & _ & -> & Hfree)].
    + f_equal. f_equal. multiset_solver.
    + cbn [st_tp st_matched_gold]. rewrite Hfree.
      replace (({[+ scoring_key p +]} ⊎ key_bag ps)
               ∩ ({[+ scoring_key p +]}
                  ⊎ free_keys ({[i]} ∪ st_matched_gold st) (enumerate_from 0 gold)))
        with ({[+ scoring_key p +]}
              ⊎ (key_bag ps
                 ∩ free_keys ({[i]} ∪ st_matched_gold st) (enumerate_from 0 gold)))
        by multiset_solver.
      rewrite gmultiset_size_disj_union, gmultiset_size_singleton. lia.
Qed.

Lemma key_bag_perm (l l' : list record) : l ≡ₚ l' → key_bag l = key_bag l'.
Proof. intros H. unfold key_bag. by rewrite H. Qed.

(** X24. Under the exact predicate the true-positive count is the size of
    the intersection of the two bags of keys (class, normalised text): for
    every key, the smaller of its number of predicted and of gold records.
    So the whole result is the same for every order of the predicted and of
    the gold records. *)
Theorem X24_exact_count_order_independent (predicted gold : list record) :
  (∃ m, compute_metrics predicted gold "exact" = Ok m
        ∧ tp m = size (key_bag predicted ∩ key_bag gold))
  ∧ (∀ predicted' gold', predicted' ≡ₚ predicted → gold' ≡ₚ gold →
       compute_metrics predicted' gold' "exact"
       = compute_metrics predicted gold "exact").
Proof.
  assert (Htp : ∀ ps gs, st_tp (match_loop (select_match "exact") ps gs)
                         = size (key_bag ps ∩ key_bag gs)).
  { intros ps gs. unfold match_loop.
    change (select_match "exact") with exact_match.
    rewrite fold_match_one_exact. cbn [st_tp st_matched_gold].
    unfold enumerate. by rewrite free_keys_all. }
  split.
  - metrics_returned. apply Htp.
  - intros predicted' gold' Hp Hg.
    rewrite !compute_metrics_returns, !Htp.
    by rewrite (key_bag_perm _ _ Hp), (key_bag_perm _ _ Hg),
               (Permutation_length Hp), (Permutation_length Hg).
Qed.

Lemma X24_exact_count_order_independent_witness :
  compute_metrics (reverse three_records) [mk_record "dosage" "250MG"] "exact"
  = compute_metrics three_records [mk_record "dosage" "250MG"] "exact".
Proof.
  apply (proj2 (X24_exact_count_order_independent three_records
                  [mk_record "dosage" "250MG"])).
  - apply reverse_Permutation.
  - reflexivity.
Defined.


(** ** The evidence tab on exported rows *)

(** X25. For a row that [extractions_to_serializable] made, the evidence tab
    of the app shows the slice [text[start:end]] and the two positions when
    the extraction has a char interval, and the extraction text with
    [None]-[None] as positions when it has none; the empty default is never
    shown in place of a text. *)
Theorem X25_evidence_of_row (es : list Extraction) (t : string)
    (rows : list (gmap string pyval)) (i : nat) (e : Extraction)
    (row : gmap string pyval) :
  extractions_to_serializable (MkAnnotatedDocument (Some es) (Some t))
  = Done rows →
  es !! i = Some e → rows !! i = Some row →
  (char_interval e = None →
     evidence_snippet row = PyStr (extraction_text e)
     ∧ evidence_span row = (PyNone, PyNone))
  ∧ (∀ ci, char_interval e = Some ci →
       evidence_snippet row = PyStr (getslice t (start_pos ci) (end_pos ci))
       ∧ evidence_span row
         = (of_position (start_pos ci), of_position (end_pos ci))).
Proof.
  intros Hdone He Hrow.
  destruct (serializable_rows es t) as (rows' & Hrows & Hall).
  rewrite Hdone in Hrows. injection Hrows as <-.
  pose proof (Forall2_lookup_lr _ _ _ _ _ _ Hall He Hrow) as Hser.
  destruct (serialize_extraction_inj t e row Hser)
    as (_ & Ht & _ & Hs & He' & Hsn).
  unfold evidence_snippet, evidence_span, row_get.
  rewrite Ht, Hs, He', Hsn. split.
  - by intros ->.
  - by intros ci ->.
Qed.

Lemma X25_evidence_of_row_witness :
  ∃ rows row, extractions_to_serializable sample_document = Done rows
    ∧ rows !! 1 = Some row
    ∧ evidence_snippet row = PyStr "3 days"
    ∧ evidence_span row = (PyNone, PyNone).
Proof.
  destruct (serializable_rows sample_extractions "Fever for 3 days.")
    as (rows & Hdone & Hall).
  destruct (Forall2_lookup_l _ _ _ 1 _ Hall eq_refl) as (row & Hr & _).
  exists rows, row. split; [exact Hdone|]. split; [exact Hr|].
  exact (proj1 (X25_evidence_of_row sample_extractions "Fever for 3 days."
                  rows 1 _ row Hdone eq_refl Hr) eq_refl).
Defined.
